(** * SP connection pipe ([conn.go]): wire encodings, handshake and framing.

    The Go source implements the [Pipe] interface on top of a [net.Conn].
    The development below embeds the methods of [conn] as programs of a
    small free monad over the operations the code performs on its
    environment (mutex operations, calls on the underlying stream, accesses
    to the fields of the receiver).  The programs are given a sequential
    semantics ([run]) and an interleaving semantics ([pool_step]). *)

From Stdlib Require Import ZArith List Lia Bool Permutation.
From Stdlib Require Init.Byte Strings.Byte.
From coqutil Require Import Byte Z.bitblast.
Import ListNotations.
Import Init.Byte.ByteSyntaxNotations.
Delimit Scope byte_scope with byte.
Local Open Scope Z_scope.

(** ** Machine integers *)

(** Conversion to an unsigned 64-bit integer wraps modulo 2^64. *)
Definition uint64 (z : Z) : Z := z mod 2 ^ 64.

(** Reinterpretation of a 64-bit pattern as a signed integer. *)
Definition int64 (z : Z) : Z := (z + 2 ^ 63) mod 2 ^ 64 - 2 ^ 63.

Definition uint16 (z : Z) : Z := z mod 2 ^ 16.

(** Go's [len] and [make([]byte, n)]. *)
Definition len (b : list byte) : Z := Z.of_nat (length b).
Definition make (n : Z) : list byte := repeat Byte.x00 (Z.to_nat n).

(** ** [encoding/binary], big-endian byte order *)

Module BigEndian.

Definition at_ (b : list byte) (i : nat) : Z := byte.unsigned (nth i b Byte.x00).

Definition PutUint16 (v : Z) : list byte :=
[byte.of_Z (Z.shiftr v 8); byte.of_Z v].

Definition Uint16 (b : list byte) : Z :=
Z.lor (at_ b 1) (Z.shiftl (at_ b 0) 8).

Definition PutUint64 (v : Z) : list byte :=
[byte.of_Z (Z.shiftr v 56); byte.of_Z (Z.shiftr v 48);
 byte.of_Z (Z.shiftr v 40); byte.of_Z (Z.shiftr v 32);
 byte.of_Z (Z.shiftr v 24); byte.of_Z (Z.shiftr v 16);
 byte.of_Z (Z.shiftr v 8); byte.of_Z v].

Definition Uint64 (b : list byte) : Z :=
Z.lor (Z.lor (Z.lor (Z.lor (Z.lor (Z.lor (Z.lor
  (at_ b 7)
  (Z.shiftl (at_ b 6) 8))
  (Z.shiftl (at_ b 5) 16))
  (Z.shiftl (at_ b 4) 24))
  (Z.shiftl (at_ b 3) 32))
  (Z.shiftl (at_ b 2) 40))
  (Z.shiftl (at_ b 1) 48))
  (Z.shiftl (at_ b 0) 56).

End BigEndian.

(** ** Errors and messages *)

(** Modelled from the spec: the error values [ErrBadHeader] ("bad header"),
    [ErrBadVersion] ("bad version") and [ErrTooLong] ("message too long")
    are declared elsewhere in the package.  The remaining constructors are
    the errors a byte stream can report. *)
Inductive error : Set :=
| ErrBadHeader
| ErrBadVersion
| ErrTooLong
| EOF
| ErrUnexpectedEOF
| ErrClosed
| ErrIO (code : nat).

(** Modelled from the spec: [Message] is declared elsewhere in the package;
    it carries a header and a body, both ordered sequences of bytes. *)
Record Message := mkMessage { Header : list byte; Body : list byte }.

(** Modelled from the spec: [putUint64] is declared elsewhere in the
    package; it stores a 64-bit value into a buffer in network byte order. *)
Definition putUint64 (b : list byte) (v : Z) : list byte :=
  BigEndian.PutUint64 v ++ skipn 8 b.

(** [connHeader] is exchanged during the initial handshake. *)
Module connHeader.
Record t := mk {
Zero : byte;    (* must be zero *)
S : byte;       (* 'S' *)
P : byte;       (* 'P' *)
Version : byte; (* only zero at present *)
Proto : Z;
Rsvd : Z        (* always zero at present *)
}.

(** The layout [binary.Write] and [binary.Read] give the struct: the
  fields in declaration order, 16-bit fields in big-endian order. *)
Definition encode (h : t) : list byte :=
[Zero h; S h; P h; Version h]
  ++ BigEndian.PutUint16 (Proto h) ++ BigEndian.PutUint16 (Rsvd h).

Definition decode (b : list byte) : t :=
{| Zero := nth 0 b Byte.x00;
   S := nth 1 b Byte.x00;
   P := nth 2 b Byte.x00;
   Version := nth 3 b Byte.x00;
   Proto := BigEndian.Uint16 (skipn 4 b);
   Rsvd := BigEndian.Uint16 (skipn 6 b) |}.
End connHeader.

(** ** The environment: mutexes and the underlying stream *)

Inductive mutex : Set := RLock | WLock.

(** The calls made on the underlying [net.Conn], in program order. *)
Inductive Call :=
| CallReadFull (n : nat)
| CallWrite (b : list byte)
| CallClose.

(** The operations a method of [conn] performs on its environment; the
    index is the type of the answer. *)
Inductive connE : Type -> Type :=
| MuLock (m : mutex) : connE unit
| MuUnlock (m : mutex) : connE unit
| NetReadFull (buf : list byte) : connE (list byte * option error)
| NetWrite (b : list byte) : connE (option error)
| NetClose : connE (option error)
| GetLproto : connE Z
| GetRproto : connE Z
| SetRproto (v : Z) : connE unit
| GetOpen : connE bool
| SetOpen (b : bool) : connE unit.

(** Programs: finite trees of operations. *)
Inductive Prog (A : Type) : Type :=
| Ret (a : A)
| Op {X : Type} (e : connE X) (k : X -> Prog A).
Arguments Ret {A} a.
Arguments Op {A X} e k.

Fixpoint bind {A B : Type} (m : Prog A) (f : A -> Prog B) : Prog B :=
  match m with
  | Ret a => f a
  | Op e k => Op e (fun x => bind (k x) f)
  end.

Definition trigger {X : Type} (e : connE X) : Prog X := Op e Ret.

Declare Scope prog_scope.
Delimit Scope prog_scope with prog.
Notation "x <- m ;; f" := (bind m (fun x => f))
  (at level 61, m at next level, right associativity) : prog_scope.
Notation "' p <- m ;; f" := (bind m (fun x => match x with p => f end))
  (at level 61, p pattern, m at next level, right associativity) : prog_scope.
Notation "m ;; f" := (bind m (fun _ => f))
  (at level 61, right associativity) : prog_scope.
Local Open Scope prog_scope.

(** [defer f] at the top of a function body: [f] runs when the body
    returns, whichever [return] is taken. *)
Definition defer {A : Type} (f : Prog unit) (body : Prog A) : Prog A :=
  r <- body ;; f ;; Ret r.

(** Overwriting the front of a buffer with the bytes read. *)
Definition fill (buf data : list byte) : list byte :=
  firstn (length buf) data ++ skipn (length data) buf.

(** ** [encoding/binary] and [io] over the stream *)

(** [binary.Write(p.conn, binary.BigEndian, l)] for a [uint64]: the eight
    bytes go out in one [Write]. *)
Definition binary_Write_uint64 (l : Z) : Prog (option error) :=
  trigger (NetWrite (BigEndian.PutUint64 l)).

(** [binary.Write(p.conn, binary.BigEndian, &h)] for a [connHeader]. *)
Definition binary_Write_connHeader (h : connHeader.t) : Prog (option error) :=
  trigger (NetWrite (connHeader.encode h)).

(** [binary.Read(p.conn, binary.BigEndian, &sz)] for an [int64]: the value
    is stored only when all eight bytes were read. *)
Definition binary_Read_int64 (sz : Z) : Prog (Z * option error) :=
  '(bs, err) <- trigger (NetReadFull (make 8)) ;;
  match err with
  | Some e => Ret (sz, Some e)
  | None => Ret (int64 (BigEndian.Uint64 bs), None)
  end.

(** [binary.Read(p.conn, binary.BigEndian, &h)] for a [connHeader]. *)
Definition binary_Read_connHeader (h : connHeader.t)
  : Prog (connHeader.t * option error) :=
  '(bs, err) <- trigger (NetReadFull (make 8)) ;;
  match err with
  | Some e => Ret (h, Some e)
  | None => Ret (connHeader.decode bs, None)
  end.

Definition byte_neq (a b : byte) : bool := negb (Byte.eqb a b).

(** ** The methods of [conn] *)

(** [Recv] implements the Pipe Recv method.  The message received is
    expected as a 64-bit size (network byte order) followed by the message
    itself. *)
Definition Recv : Prog (option Message * option error) :=
  (* prevent interleaved reads *)
  trigger (MuLock RLock) ;;
  defer (trigger (MuUnlock RLock)) (
    '(sz, err) <- binary_Read_int64 0 ;;
    match err with
    | Some e => Ret (None, Some e)
    | None =>
      if (sz >? 1024 * 1024) || (sz <? 0) then
        trigger NetClose ;;
        Ret (None, Some ErrTooLong)
      else
        let msg := {| Header := []; Body := make sz |} in
        '(body, err) <- trigger (NetReadFull (Body msg)) ;;
        match err with
        | Some e => Ret (None, Some e)
        | None => Ret (Some {| Header := Header msg; Body := body |}, None)
        end
    end).

(** [Send] implements the Pipe Send method.  The message is sent as a
    64-bit size (network byte order) followed by the message itself. *)
Definition Send (msg : Message) : Prog (option error) :=
  let h := make 8 in
  let l := uint64 (len (Header msg) + len (Body msg)) in
  let h := putUint64 h l in
  (* prevent interleaved writes *)
  trigger (MuLock WLock) ;;
  defer (trigger (MuUnlock WLock)) (
    (* send length header *)
    err <- binary_Write_uint64 l ;;
    match err with
    | Some e => Ret (Some e)
    | None =>
      err <- trigger (NetWrite (Header msg)) ;;
      match err with
      | Some e => Ret (Some e)
      | None =>
        err <- trigger (NetWrite (Body msg)) ;;
        match err with
        | Some e => Ret (Some e)
        | None => Ret None
        end
      end
    end).

(** [LocalProtocol] returns our local protocol number. *)
Definition LocalProtocol : Prog Z := trigger GetLproto.

(** [RemoteProtocol] returns our peer's protocol number. *)
Definition RemoteProtocol : Prog Z := trigger GetRproto.

(** [Close] implements the Pipe Close method. *)
Definition Close : Prog (option error) :=
  trigger (SetOpen false) ;;
  trigger NetClose.

(** [IsOpen] implements the Pipe IsOpen method. *)
Definition IsOpen : Prog bool := trigger GetOpen.

(** [handshake] establishes an SP connection between peers.  Both sides
    send the header, then both sides wait for the peer's header.  As a side
    effect, the peer's protocol number is stored in the conn. *)
Definition handshake : Prog (option error) :=
  lp <- trigger GetLproto ;;
  let h := {| connHeader.Zero := Byte.x00;
              connHeader.S := "S"%byte;
              connHeader.P := "P"%byte;
              connHeader.Version := Byte.x00;
              connHeader.Proto := lp;
              connHeader.Rsvd := 0 |} in
  err <- binary_Write_connHeader h ;;
  match err with
  | Some e => Ret (Some e)
  | None =>
    '(h, err) <- binary_Read_connHeader h ;;
    match err with
    | Some e => trigger NetClose ;; Ret (Some e)
    | None =>
      if byte_neq (connHeader.Zero h) Byte.x00
         || byte_neq (connHeader.S h) "S"%byte
         || byte_neq (connHeader.P h) "P"%byte
         || negb (connHeader.Rsvd h =? 0)
      then trigger NetClose ;; Ret (Some ErrBadHeader)
      else
        (* The only version number we support at present is "0", at offset 3. *)
        if byte_neq (connHeader.Version h) Byte.x00
        then trigger NetClose ;; Ret (Some ErrBadVersion)
        else
          (* The protocol number lives as 16-bits (big-endian) at offset 4. *)
          trigger (SetRproto (connHeader.Proto h)) ;;
          trigger (SetOpen true) ;;
          Ret None
    end
  end.

(** ** Sequential semantics *)

Section Semantics.

(** The state of everything behind the [net.Conn] interface. *)
Variable W : Type.

(** The part of [net.Conn] the pipe uses.  [conn_ReadFull n] stands for
  [io.ReadFull] on a buffer of [n > 0] bytes: it answers with the bytes
  obtained and the error, if any.  [conn_Write] and [conn_Close] are the
  methods of the same names. *)
Record NetConn := mkNetConn {
conn_ReadFull : nat -> W -> list byte * option error * W;
conn_Write : list byte -> W -> option error * W;
conn_Close : W -> option error * W
}.

(** [conn] implements the Pipe interface on top of [net.Conn].  A mutex
  is [true] while it is held. *)
Record conn := mkconn {
netc : NetConn;
rlock : bool;
wlock : bool;
rproto : Z;
lproto : Z;
open : bool
}.

Record State := mkState {
pipe : conn;
world : W;
calls : list Call
}.

Definition held (m : mutex) (p : conn) : bool :=
match m with RLock => rlock p | WLock => wlock p end.

Definition set_mutex (m : mutex) (b : bool) (p : conn) : conn :=
match m with
| RLock => mkconn (netc p) b (wlock p) (rproto p) (lproto p) (open p)
| WLock => mkconn (netc p) (rlock p) b (rproto p) (lproto p) (open p)
end.

Definition set_rproto (v : Z) (p : conn) : conn :=
mkconn (netc p) (rlock p) (wlock p) v (lproto p) (open p).

Definition set_open (b : bool) (p : conn) : conn :=
mkconn (netc p) (rlock p) (wlock p) (rproto p) (lproto p) b.

Definition with_pipe (p : conn) (s : State) : State :=
mkState p (world s) (calls s).

(** One operation.  [None]: the operation does not return ([Lock] on a
  held mutex blocks, [Unlock] on a free one is a fatal error).
  [io.ReadFull] on an empty buffer returns at once, without a call on
  the stream. *)
Definition handle {X : Type} (e : connE X) (s : State) : option (X * State) :=
match e in connE X return option (X * State) with
| MuLock m =>
    if held m (pipe s) then None
    else Some (tt, with_pipe (set_mutex m true (pipe s)) s)
| MuUnlock m =>
    if held m (pipe s)
    then Some (tt, with_pipe (set_mutex m false (pipe s)) s)
    else None
| NetReadFull buf =>
    match length buf with
    | O => Some ((buf, None), s)
    | n =>
        let '(data, err, w) := conn_ReadFull (netc (pipe s)) n (world s) in
        Some ((fill buf data, err),
              mkState (pipe s) w (calls s ++ [CallReadFull n]))
    end
| NetWrite b =>
    let '(err, w) := conn_Write (netc (pipe s)) b (world s) in
    Some (err, mkState (pipe s) w (calls s ++ [CallWrite b]))
| NetClose =>
    let '(err, w) := conn_Close (netc (pipe s)) (world s) in
    Some (err, mkState (pipe s) w (calls s ++ [CallClose]))
| GetLproto => Some (lproto (pipe s), s)
| GetRproto => Some (rproto (pipe s), s)
| SetRproto v => Some (tt, with_pipe (set_rproto v (pipe s)) s)
| GetOpen => Some (open (pipe s), s)
| SetOpen b => Some (tt, with_pipe (set_open b (pipe s)) s)
end.

(** Running a program to its end, alone. *)
Fixpoint run {A : Type} (m : Prog A) (s : State) : option (A * State) :=
match m with
| Ret a => Some (a, s)
| Op e k =>
    match handle e s with
    | Some (x, s') => run (k x) s'
    | None => None
    end
end.

(** [NewConnPipe] allocates a new Pipe using the supplied [net.Conn], and
  initializes it.  It performs the handshake required at the SP layer,
  only returning the Pipe once the SP layer negotiation is complete.
  The answer is the pair the Go function returns, with the state the
  handshake leaves behind. *)
Definition NewConnPipe (c : NetConn) (lproto : Z) (w : W)
: option ((option conn * option error) * State) :=
let p := {| netc := c; rlock := false; wlock := false;
            rproto := 0; lproto := lproto; open := false |} in
match run handshake (mkState p w []) with
| Some (Some err, s) => Some ((None, Some err), s)
| Some (None, s) => Some ((Some (pipe s), None), s)
| None => None
end.

End Semantics.

Arguments mkNetConn {W}.
Arguments conn_ReadFull {W}.
Arguments conn_Write {W}.
Arguments conn_Close {W}.
Arguments mkconn {W}.
Arguments netc {W}.
Arguments rlock {W}.
Arguments wlock {W}.
Arguments rproto {W}.
Arguments lproto {W}.
Arguments open {W}.
Arguments mkState {W}.
Arguments pipe {W}.
Arguments world {W}.
Arguments calls {W}.
Arguments held {W}.
Arguments set_mutex {W}.
Arguments set_rproto {W}.
Arguments set_open {W}.
Arguments with_pipe {W}.
Arguments handle {W X}.
Arguments run {W A}.
Arguments NewConnPipe {W}.

(** ** Streams *)

(** A connected pair of streams, as the two ends [EndA] and [EndB] of one
    wire: what one end writes is queued for the other end to read.  A read
    that finds fewer bytes than it asks for consumes them and reports the
    end of the stream, as when the peer has stopped sending. *)
Record Wire := mkWire {
  a2b : list byte;
  b2a : list byte;
  closedA : bool;
  closedB : bool
}.

Inductive End : Set := EndA | EndB.

Definition closed (e : End) (w : Wire) : bool :=
  match e with EndA => closedA w | EndB => closedB w end.

Definition inbox (e : End) (w : Wire) : list byte :=
  match e with EndA => b2a w | EndB => a2b w end.

Definition set_inbox (e : End) (q : list byte) (w : Wire) : Wire :=
  match e with
  | EndA => mkWire (a2b w) q (closedA w) (closedB w)
  | EndB => mkWire q (b2a w) (closedA w) (closedB w)
  end.

Definition push (e : End) (b : list byte) (w : Wire) : Wire :=
  match e with
  | EndA => mkWire (a2b w ++ b) (b2a w) (closedA w) (closedB w)
  | EndB => mkWire (a2b w) (b2a w ++ b) (closedA w) (closedB w)
  end.

Definition shut (e : End) (w : Wire) : Wire :=
  match e with
  | EndA => mkWire (a2b w) (b2a w) true (closedB w)
  | EndB => mkWire (a2b w) (b2a w) (closedA w) true
  end.

Definition wire_ReadFull (e : End) (n : nat) (w : Wire)
  : list byte * option error * Wire :=
  if closed e w then ([], Some ErrClosed, w)
  else
    let q := inbox e w in
    if (n <=? length q)%nat
    then (firstn n q, None, set_inbox e (skipn n q) w)
    else (q, Some (match q with [] => EOF | _ => ErrUnexpectedEOF end),
          set_inbox e [] w).

Definition wire_Write (e : End) (b : list byte) (w : Wire)
  : option error * Wire :=
  if closed e w then (Some ErrClosed, w) else (None, push e b w).

Definition wire_Close (e : End) (w : Wire) : option error * Wire :=
  if closed e w then (Some ErrClosed, w) else (None, shut e w).

Definition wire_conn (e : End) : NetConn Wire :=
  mkNetConn (wire_ReadFull e) (wire_Write e) (wire_Close e).

(** A stream whose writes follow a script of outcomes, one per call; it
    keeps the bytes of the writes that succeeded and counts the calls of
    [Close].  Its reads find the stream at its end. *)
Record Script := mkScript {
  outcomes : list (option error);
  accepted : list byte;
  closes : nat
}.

Definition script_Write (b : list byte) (w : Script) : option error * Script :=
  match outcomes w with
  | Some e :: sc => (Some e, mkScript sc (accepted w) (closes w))
  | None :: sc => (None, mkScript sc (accepted w ++ b) (closes w))
  | [] => (None, mkScript [] (accepted w ++ b) (closes w))
  end.

Definition script_Close (w : Script) : option error * Script :=
  (None, mkScript (outcomes w) (accepted w) (S (closes w))).

Definition script_conn : NetConn Script :=
  mkNetConn (fun _ w => ([], Some EOF, w)) script_Write script_Close.

(** The eight bytes a pipe with local protocol number [lp] sends in the
    handshake. *)
Definition handshake_header (lp : Z) : list byte :=
  connHeader.encode
    {| connHeader.Zero := Byte.x00;
       connHeader.S := "S"%byte;
       connHeader.P := "P"%byte;
       connHeader.Version := Byte.x00;
       connHeader.Proto := lp;
       connHeader.Rsvd := 0 |}.

(** The first check [handshake] makes on the header it received. *)
Definition bad_header (h : connHeader.t) : bool :=
  byte_neq (connHeader.Zero h) Byte.x00
  || byte_neq (connHeader.S h) "S"%byte
  || byte_neq (connHeader.P h) "P"%byte
  || negb (connHeader.Rsvd h =? 0).

(** The struct [NewConnPipe] allocates. *)
Definition new_conn {W : Type} (c : NetConn W) (lproto : Z) : conn W :=
  {| netc := c; rlock := false; wlock := false;
     rproto := 0; lproto := lproto; open := false |}.

(** The data frame of a message on the wire: the combined length of header
    and body as a big-endian unsigned 64-bit value, the header bytes, the
    body bytes. *)
Definition frame (msg : Message) : list byte :=
  BigEndian.PutUint64 (len (Header msg) + len (Body msg))
    ++ Header msg ++ Body msg.

(** What the receive path delivers for a message: everything as body. *)
Definition delivered (msg : Message) : Message :=
  {| Header := []; Body := Header msg ++ Body msg |}.

(** What [Send] does according to its description: three writes in order,
    given up at the first error. *)
Definition Send_writes {W : Type} (msg : Message) (s : State W)
  : option error * State W :=
  let c := netc (pipe s) in
  let b1 := BigEndian.PutUint64 (len (Header msg) + len (Body msg)) in
  let '(e1, w1) := conn_Write c b1 (world s) in
  match e1 with
  | Some e => (Some e, mkState (pipe s) w1 (calls s ++ [CallWrite b1]))
  | None =>
    let '(e2, w2) := conn_Write c (Header msg) w1 in
    match e2 with
    | Some e =>
        (Some e, mkState (pipe s) w2
                   (calls s ++ [CallWrite b1; CallWrite (Header msg)]))
    | None =>
      let '(e3, w3) := conn_Write c (Body msg) w2 in
      (e3, mkState (pipe s) w3
             (calls s ++ [CallWrite b1; CallWrite (Header msg);
                          CallWrite (Body msg)]))
    end
  end.

(** ** Interleaving semantics *)

(** One step of one thread: its next operation, if it is enabled. *)
Definition thread_step {W A : Type} (t : Prog A) (s : State W)
  : option (Prog A * State W) :=
  match t with
  | Ret _ => None
  | Op e k =>
      match handle e s with
      | Some (x, s') => Some (k x, s')
      | None => None
      end
  end.

(** Threads that share one pipe; any thread whose next operation is enabled
    may take the next step. *)
Inductive pool_step {W A : Type}
  : list (Prog A) * State W -> list (Prog A) * State W -> Prop :=
| pool_step_thread (l1 l2 : list (Prog A)) (t t' : Prog A) (s s' : State W) :
    thread_step t s = Some (t', s') ->
    pool_step (l1 ++ t :: l2, s) (l1 ++ t' :: l2, s').

Inductive pool_steps {W A : Type}
  : list (Prog A) * State W -> list (Prog A) * State W -> Prop :=
| pool_steps_refl c : pool_steps c c
| pool_steps_step c1 c2 c3 :
    pool_step c1 c2 -> pool_steps c2 c3 -> pool_steps c1 c3.

(** A thread has returned. *)
Definition finished {A : Type} (t : Prog A) : Prop := exists a : A, t = Ret a.

(** The answer of an operation that goes through without error; the
    operations of [Send] have no other answer on a healthy stream. *)
Definition ok {X : Type} (e : connE X) : X :=
  match e in connE X return X with
  | MuLock _ => tt
  | MuUnlock _ => tt
  | NetReadFull buf => (buf, None)
  | NetWrite _ => None
  | NetClose => None
  | GetLproto => 0
  | GetRproto => 0
  | SetRproto _ => tt
  | GetOpen => false
  | SetOpen _ => tt
  end.

(** What remains of a program after its first [k] operations, each
    answered without error. *)
Fixpoint residual {A : Type} (k : nat) (t : Prog A) : Prog A :=
  match k, t with
  | S k', Op e h => residual k' (h (ok e))
  | _, _ => t
  end.

(** The bytes of its frame a sender has written after [k] operations:
    the lock, the three writes, the unlock. *)
Definition written (k : nat) (msg : Message) : list byte :=
  match k with
  | 0%nat | 1%nat => []
  | 2%nat => BigEndian.PutUint64 (len (Header msg) + len (Body msg))
  | 3%nat =>
      BigEndian.PutUint64 (len (Header msg) + len (Body msg)) ++ Header msg
  | _ => frame msg
  end.

(** The sender that holds the write mutex, if any, with the number of
    operations it has done. *)
Definition holder : Type := option (Message * nat).

Definition holder_thread (cur : holder) : list (Prog (option error)) :=
  match cur with
  | Some (msg, k) => [residual k (Send msg)]
  | None => []
  end.

Definition holder_msg (cur : holder) : list Message :=
  match cur with Some (msg, _) => [msg] | None => [] end.

Definition holder_bytes (cur : holder) : list byte :=
  match cur with Some (msg, k) => written k msg | None => [] end.

Definition holder_ok (cur : holder) : Prop :=
  match cur with Some (_, k) => (1 <= k <= 4)%nat | None => True end.

Definition is_some {A : Type} (o : option A) : bool :=
  match o with Some _ => true | None => false end.

(** The invariant of a pool of senders on end A of a wire that started as
    [w0] with the messages [msgs]: the senders are those still waiting for
    the write mutex, those that have returned, and at most one in between,
    which holds the mutex; the bytes under way are the frames of the
    senders that have returned, whole and one after the other, followed by
    the part of its frame the holder has written. *)
Definition senders_inv (w0 : Wire) (msgs : list Message)
    (c : list (Prog (option error)) * State Wire) : Prop :=
  exists (waiting done : list Message) (cur : holder),
    Permutation (fst c)
      (holder_thread cur ++ map Send waiting
         ++ map (fun _ => Ret None) done) /\
    Permutation msgs (holder_msg cur ++ waiting ++ done) /\
    holder_ok cur /\
    wlock (pipe (snd c)) = is_some cur /\
    netc (pipe (snd c)) = wire_conn EndA /\
    a2b (world (snd c)) =
      a2b w0 ++ concat (map frame done) ++ holder_bytes cur /\
    b2a (world (snd c)) = b2a w0 /\
    closedA (world (snd c)) = false /\
    closedB (world (snd c)) = closedB w0.

(** [pool_steps_n n c c']: [n] steps lead from [c] to [c']. *)
Inductive pool_steps_n {W A : Type}
  : nat -> list (Prog A) * State W -> list (Prog A) * State W -> Prop :=
| pool_steps_n_refl c : pool_steps_n 0 c c
| pool_steps_n_step n c1 c2 c3 :
    pool_step c1 c2 -> pool_steps_n n c2 c3 -> pool_steps_n (S n) c1 c3.

(** The operations the holder of the write mutex has done. *)
Definition holder_steps (cur : holder) : nat :=
  match cur with Some (_, k) => k | None => 0%nat end.

(** The invariant of a pool of senders, with the number of steps the pool
    has taken: a sender that has returned has taken five (the lock, the
    three writes, the unlock), a sender that waits none. *)
Definition senders_inv_at (n : nat) (w0 : Wire) (msgs : list Message)
    (c : list (Prog (option error)) * State Wire) : Prop :=
  exists (waiting done : list Message) (cur : holder),
    Permutation (fst c)
      (holder_thread cur ++ map Send waiting
         ++ map (fun _ => Ret None) done) /\
    Permutation msgs (holder_msg cur ++ waiting ++ done) /\
    holder_ok cur /\
    wlock (pipe (snd c)) = is_some cur /\
    netc (pipe (snd c)) = wire_conn EndA /\
    a2b (world (snd c)) =
      a2b w0 ++ concat (map frame done) ++ holder_bytes cur /\
    b2a (world (snd c)) = b2a w0 /\
    closedA (world (snd c)) = false /\
    closedB (world (snd c)) = closedB w0 /\
    n = (5 * length done + holder_steps cur)%nat.

(** [n] receives in a row. *)
Fixpoint RecvN (n : nat) : Prog (list (option Message * option error)) :=
  match n with
  | O => Ret []
  | S n' => r <- Recv ;; rs <- RecvN n' ;; Ret (r :: rs)
  end.

(** One send after the other, by one caller. *)
Fixpoint SendAll (msgs : list Message) : Prog (list (option error)) :=
  match msgs with
  | [] => Ret []
  | msg :: rest => r <- Send msg ;; rs <- SendAll rest ;; Ret (r :: rs)
  end.

(** What a caller and the stream see of a run. *)
Definition seen {W A : Type} (o : option (A * State W))
  : option (A * W * list Call) :=
  match o with
  | Some (a, s) => Some (a, world s, calls s)
  | None => None
  end.

(** ** Threads by their answers *)

(** The answer an operation got. *)
Inductive answer :=
| AUnit
| ARead (buf : list byte) (err : option error)
| AErr (err : option error)
| AZ (z : Z)
| ABool (b : bool).

Definition cast {X : Type} (e : connE X) (a : answer) : option X :=
  match e in connE X return option X with
  | MuLock _ => match a with AUnit => Some tt | _ => None end
  | MuUnlock _ => match a with AUnit => Some tt | _ => None end
  | NetReadFull _ => match a with ARead b err => Some (b, err) | _ => None end
  | NetWrite _ => match a with AErr err => Some err | _ => None end
  | NetClose => match a with AErr err => Some err | _ => None end
  | GetLproto => match a with AZ z => Some z | _ => None end
  | GetRproto => match a with AZ z => Some z | _ => None end
  | SetRproto _ => match a with AUnit => Some tt | _ => None end
  | GetOpen => match a with ABool b => Some b | _ => None end
  | SetOpen _ => match a with AUnit => Some tt | _ => None end
  end.

(** What remains of a program after its first operations got the answers
    [tr]. *)
Fixpoint after {A : Type} (t : Prog A) (tr : list answer) {struct tr}
  : Prog A :=
  match tr, t with
  | a :: tr', Op e k =>
      match cast e a with
      | Some x => after (k x) tr'
      | None => t
      end
  | _, _ => t
  end.

(** The answers [Recv] gets when the frame of [msg] is at the front of
    the bytes that wait: the lock, the length prefix, the bytes of header
    and body, the unlock. *)
Definition recv_answers (msg : Message) : list answer :=
  [AUnit;
   ARead (BigEndian.PutUint64 (len (Header msg) + len (Body msg))) None;
   ARead (Header msg ++ Body msg) None;
   AUnit].

(** A receiver that has done [k] operations on the frame of [msg]. *)
Definition recv_stage (k : nat) (msg : Message)
  : Prog (option Message * option error) :=
  after Recv (firstn k (recv_answers msg)).

(** What a receiver that has done [k] operations has left of the frame. *)
Definition unread (k : nat) (msg : Message) : list byte :=
  match k with
  | 0%nat | 1%nat => frame msg
  | 2%nat => Header msg ++ Body msg
  | _ => []
  end.

Definition rholder_thread (cur : holder)
  : list (Prog (option Message * option error)) :=
  match cur with
  | Some (msg, k) => [recv_stage k msg]
  | None => []
  end.

Definition rholder_bytes (cur : holder) : list byte :=
  match cur with Some (msg, k) => unread k msg | None => [] end.

Definition rholder_ok (cur : holder) : Prop :=
  match cur with Some (_, k) => (1 <= k <= 3)%nat | None => True end.

(** The invariant of a pool of receivers on end B of a wire on which the
    frames of [order] wait, one receiver per message: the receivers are
    those still waiting for the read mutex, those that have returned, each
    with one whole message, and at most one in between, which holds the
    mutex; the bytes that wait are what the holder has left of its frame,
    followed by the frames nobody has started on. *)
Definition receivers_inv (order : list Message)
    (c : list (Prog (option Message * option error)) * State Wire) : Prop :=
  exists (done todo : list Message) (cur : holder),
    order = done ++ holder_msg cur ++ todo /\
    Permutation (fst c)
      (rholder_thread cur ++ repeat Recv (length todo)
         ++ map (fun m => Ret (Some (delivered m), None)) done) /\
    rholder_ok cur /\
    rlock (pipe (snd c)) = is_some cur /\
    netc (pipe (snd c)) = wire_conn EndB /\
    a2b (world (snd c)) = rholder_bytes cur ++ concat (map frame todo) /\
    closedB (world (snd c)) = false.

(** ** Two pipes on one wire *)

(** A read on an end that is not closed waits while fewer bytes have
    arrived than it asks for. *)
Definition waits_for_bytes {A : Type} (e : End) (t : Prog A) (w : Wire) : bool :=
  match t with
  | Op ev _ =>
      match ev with
      | NetReadFull buf =>
          negb (closed e w) && (length (inbox e w) <? length buf)%nat
      | _ => false
      end
  | Ret _ => false
  end.

(** A caller at one end: what it still has to run, its pipe, its calls. *)
Record endpoint := mkEndpoint {
  ep_thread : Prog (option error);
  ep_pipe : conn Wire;
  ep_calls : list Call
}.

(** One step of the caller at end [e]. *)
Definition ep_step (e : End) (ep : endpoint) (w : Wire)
  : option (endpoint * Wire) :=
  if waits_for_bytes e (ep_thread ep) w then None
  else
    match thread_step (ep_thread ep) (mkState (ep_pipe ep) w (ep_calls ep)) with
    | Some (t', s') => Some (mkEndpoint t' (pipe s') (calls s'), world s')
    | None => None
    end.

(** The two callers take their steps in any order. *)
Inductive duo_step : endpoint * endpoint * Wire -> endpoint * endpoint * Wire -> Prop :=
| duo_step_A (a a' b : endpoint) (w w' : Wire) :
    ep_step EndA a w = Some (a', w') -> duo_step (a, b, w) (a', b, w')
| duo_step_B (a b b' : endpoint) (w w' : Wire) :
    ep_step EndB b w = Some (b', w') -> duo_step (a, b, w) (a, b', w').

(** [duo_steps n c c']: [n] steps lead from [c] to [c']. *)
Inductive duo_steps
  : nat -> endpoint * endpoint * Wire -> endpoint * endpoint * Wire -> Prop :=
| duo_steps_refl c : duo_steps 0 c c
| duo_steps_step n c1 c2 c3 :
    duo_step c1 c2 -> duo_steps n c2 c3 -> duo_steps (S n) c1 c3.

(** The answers the handshake of a pipe with local protocol [lp] gets
    when all goes well and the peer has protocol [rp]. *)
Definition hs_answers (lp rp : Z) : list answer :=
  [AZ lp; AErr None; ARead (handshake_header rp) None; AUnit; AUnit].

(** The caller of [NewConnPipe] at end [e] after [k] operations of such a
    handshake. *)
Definition hs_pipe (e : End) (k : nat) (lp rp : Z) : conn Wire :=
  match k with
  | 0%nat | 1%nat | 2%nat | 3%nat => new_conn (wire_conn e) lp
  | 4%nat => set_rproto rp (new_conn (wire_conn e) lp)
  | _ => set_open true (set_rproto rp (new_conn (wire_conn e) lp))
  end.

Definition hs_calls (k : nat) (lp : Z) : list Call :=
  match k with
  | 0%nat | 1%nat => []
  | 2%nat => [CallWrite (handshake_header lp)]
  | _ => [CallWrite (handshake_header lp); CallReadFull 8]
  end.

Definition hs_endpoint (e : End) (k : nat) (lp rp : Z) : endpoint :=
  mkEndpoint (after handshake (firstn k (hs_answers lp rp)))
    (hs_pipe e k lp rp) (hs_calls k lp).

(** The wire when the two callers have done [ka] and [kb] operations: the
    header of a caller is under way from its write to the read of the
    peer. *)
Definition hs_wire (ka kb : nat) (lpa lpb : Z) : Wire :=
  mkWire (if (2 <=? ka)%nat && (kb <? 3)%nat then handshake_header lpa else [])
         (if (2 <=? kb)%nat && (ka <? 3)%nat then handshake_header lpb else [])
         false false.

(** Where the two callers of [NewConnPipe] can be. *)
Definition hs_reached (lpa lpb : Z) (n : nat)
    (c : endpoint * endpoint * Wire) : Prop :=
  exists ka kb : nat,
    (ka <= 5)%nat /\ (kb <= 5)%nat /\ (ka + kb = n)%nat /\
    (3 <= ka -> 2 <= kb)%nat /\ (3 <= kb -> 2 <= ka)%nat /\
    c = (hs_endpoint EndA ka lpa lpb, hs_endpoint EndB kb lpb lpa,
         hs_wire ka kb lpa lpb).

(** * Properties *)

(** ** Byte order *)

Example PutUint64_1MiB :
  BigEndian.PutUint64 1048576 =
  [Byte.x00; Byte.x00; Byte.x00; Byte.x00; Byte.x00; Byte.x10; Byte.x00; Byte.x00].
Proof. reflexivity. Qed.

Example Uint16_258 : BigEndian.Uint16 [Byte.x01; Byte.x02] = 258.
Proof. reflexivity. Qed.

Lemma lor_shiftl_add (lo hi k : Z) :
  0 <= k -> 0 <= lo < 2 ^ k -> Z.lor lo (Z.shiftl hi k) = lo + hi * 2 ^ k.
Proof.
  intros Hk Hlo.
  rewrite Z.or_to_plus; [rewrite Z.shiftl_mul_pow2 by lia; reflexivity|].
  apply Z.bits_inj'; intros i Hi.
  rewrite Z.land_spec, Z.bits_0.
  destruct (Z.ltb_spec i k) as [Hik|Hik].
  - rewrite Z.shiftl_spec_low by lia. apply andb_false_r.
  - assert (Z.testbit lo i = false) as ->; [|reflexivity].
    destruct (Z.eq_dec lo 0) as [->|]; [apply Z.testbit_0_l|].
    apply Z.bits_above_log2; [lia|].
    apply Z.log2_lt_pow2; [lia|].
    apply Z.lt_le_trans with (2 ^ k); [lia|].
    apply Z.pow_le_mono_r; lia.
Qed.

Lemma unsigned_of_Z_mod (z : Z) : byte.unsigned (byte.of_Z z) = z mod 256.
Proof. rewrite byte.unsigned_of_Z. reflexivity. Qed.

Lemma unsigned_range256 (b : byte) : 0 <= byte.unsigned b < 256.
Proof. apply byte.unsigned_range. Qed.

Lemma Uint16_PutUint16 (v : Z) :
  BigEndian.Uint16 (BigEndian.PutUint16 v) = uint16 v.
Proof.
  unfold BigEndian.Uint16, BigEndian.PutUint16, BigEndian.at_, uint16; cbn [nth].
  rewrite !unsigned_of_Z_mod, Z.shiftr_div_pow2 by lia.
  rewrite lor_shiftl_add; [| lia | change (2 ^ 8) with 256; Z.div_mod_to_equations; lia].
  change (2 ^ 16) with 65536. change (2 ^ 8) with 256.
  Z.div_mod_to_equations. lia.
Qed.

Lemma lor_chain64 (b0 b1 b2 b3 b4 b5 b6 b7 : Z) :
  0 <= b0 < 256 -> 0 <= b1 < 256 -> 0 <= b2 < 256 -> 0 <= b3 < 256 ->
  0 <= b4 < 256 -> 0 <= b5 < 256 -> 0 <= b6 < 256 -> 0 <= b7 < 256 ->
  Z.lor (Z.lor (Z.lor (Z.lor (Z.lor (Z.lor (Z.lor b7 (Z.shiftl b6 8))
    (Z.shiftl b5 16)) (Z.shiftl b4 24)) (Z.shiftl b3 32)) (Z.shiftl b2 40))
    (Z.shiftl b1 48)) (Z.shiftl b0 56)
  = b7 + b6 * 2 ^ 8 + b5 * 2 ^ 16 + b4 * 2 ^ 24 + b3 * 2 ^ 32 + b2 * 2 ^ 40
    + b1 * 2 ^ 48 + b0 * 2 ^ 56.
Proof.
  intros.
  rewrite (lor_shiftl_add b7) by lia.
  rewrite (lor_shiftl_add _ b5) by lia.
  rewrite (lor_shiftl_add _ b4) by lia.
  rewrite (lor_shiftl_add _ b3) by lia.
  rewrite (lor_shiftl_add _ b2) by lia.
  rewrite (lor_shiftl_add _ b1) by lia.
  rewrite (lor_shiftl_add _ b0) by lia.
  reflexivity.
Qed.

Lemma Uint64_range (b : list byte) : 0 <= BigEndian.Uint64 b < 2 ^ 64.
Proof.
  unfold BigEndian.Uint64, BigEndian.at_.
  rewrite lor_chain64 by apply unsigned_range256.
  repeat match goal with
         | |- context [byte.unsigned ?x] =>
             pose proof (unsigned_range256 x);
             generalize dependent (byte.unsigned x); intros
         end.
  lia.
Qed.

Lemma Uint64_PutUint64 (v : Z) :
  BigEndian.Uint64 (BigEndian.PutUint64 v) = uint64 v.
Proof.
  unfold BigEndian.Uint64, BigEndian.PutUint64, BigEndian.at_, uint64; cbn [nth].
  rewrite lor_chain64 by apply unsigned_range256.
  rewrite !unsigned_of_Z_mod, !Z.shiftr_div_pow2 by lia.
  Z.div_mod_to_equations. lia.
Qed.

Lemma of_Z_shiftr_uint64 (v k : Z) :
  0 <= k <= 56 ->
  byte.of_Z (Z.shiftr (uint64 v) k) = byte.of_Z (Z.shiftr v k).
Proof.
  intros Hk. apply byte.unsigned_inj.
  rewrite !unsigned_of_Z_mod, !Z.shiftr_div_pow2 by lia.
  unfold uint64.
  replace (2 ^ 64) with (2 ^ k * (2 ^ 8 * 2 ^ (56 - k)))
    by (rewrite <- !Z.pow_add_r by lia; f_equal; lia).
  rewrite Z.rem_mul_r by lia.
  rewrite Z.mul_comm, Z.div_add by lia.
  rewrite (Z.div_small (v mod 2 ^ k)) by (apply Z.mod_pos_bound; lia).
  rewrite Z.add_0_l, Z.rem_mul_r by lia.
  change (2 ^ 8) with 256.
  rewrite Z.mul_comm, Z.mod_add by lia.
  apply Z.mod_mod; lia.
Qed.

Lemma PutUint64_uint64 (v : Z) :
  BigEndian.PutUint64 (uint64 v) = BigEndian.PutUint64 v.
Proof.
  unfold BigEndian.PutUint64.
  rewrite !of_Z_shiftr_uint64 by lia.
  f_equal. f_equal. f_equal. f_equal. f_equal. f_equal. f_equal. f_equal.
  rewrite <- (Z.shiftr_0_r (uint64 v)), <- (Z.shiftr_0_r v) at 1.
  apply of_Z_shiftr_uint64; lia.
Qed.

Lemma PutUint64_length (v : Z) : length (BigEndian.PutUint64 v) = 8%nat.
Proof. reflexivity. Qed.

Lemma int64_small (z : Z) : 0 <= z < 2 ^ 63 -> int64 z = z.
Proof. unfold int64. intros. Z.div_mod_to_equations. lia. Qed.

Lemma uint64_small (z : Z) : 0 <= z < 2 ^ 64 -> uint64 z = z.
Proof. unfold uint64. intros. apply Z.mod_small. lia. Qed.

(** ** The sequential semantics *)

Section RunFacts.
Context {W : Type}.
Implicit Types s : State W.

Lemma run_bind {A B : Type} (m : Prog A) (f : A -> Prog B) s :
  run (bind m f) s =
  match run m s with
  | Some (a, s') => run (f a) s'
  | None => None
  end.
Proof.
  revert s. induction m as [a | X e k IH]; intros s; cbn [bind run].
  - reflexivity.
  - destruct (handle e s) as [[x s']|]; [apply IH | reflexivity].
Qed.

Lemma run_trigger {X : Type} (e : connE X) s :
  run (trigger e) s = handle e s.
Proof.
  unfold trigger; cbn [run]. destruct (handle e s) as [[x s']|]; reflexivity.
Qed.

(** A program run alone is the thread run step by step. *)
Lemma thread_step_run {A : Type} (t t' : Prog A) s s' :
  thread_step t s = Some (t', s') -> run t s = run t' s'.
Proof.
  destruct t as [a | X e k]; cbn [thread_step run]; [discriminate|].
  destruct (handle e s) as [[x s1]|]; [|discriminate].
  intros [= <- <-]. reflexivity.
Qed.

Lemma unlock_lock (m : mutex) (p : conn W) :
  held m p = false -> set_mutex m false (set_mutex m true p) = p.
Proof. destruct p, m; cbn; intros ->; reflexivity. Qed.

Lemma with_pipe_same s : with_pipe (pipe s) s = s.
Proof. destruct s; reflexivity. Qed.

End RunFacts.

Ltac run_step :=
  match goal with
  | |- context [run (bind _ _) _] => rewrite run_bind
  | |- context [run (trigger _) _] => rewrite run_trigger
  | |- context [run (Ret _) _] => cbn [run]
  end.

(** ** Close *)

(** C8: every call of [Close] marks the pipe not open, so that [IsOpen]
    answers [false] afterwards, and calls [Close] on the underlying stream,
    whose answer it returns; a second call does the same again. *)
Theorem Close_marks_closed_and_closes_stream {W : Type} (s : State W) :
  exists err1 s1 err2 s2,
    run Close s = Some (err1, s1) /\
    open (pipe s1) = false /\
    run IsOpen s1 = Some (false, s1) /\
    (err1, world s1) = conn_Close (netc (pipe s)) (world s) /\
    calls s1 = calls s ++ [CallClose] /\
    run Close s1 = Some (err2, s2) /\
    open (pipe s2) = false /\
    run IsOpen s2 = Some (false, s2) /\
    (err2, world s2) = conn_Close (netc (pipe s)) (world s1) /\
    calls s2 = calls s ++ [CallClose; CallClose].
Proof.
  destruct s as [p w l].
  destruct (conn_Close (netc p) w) as [e1 w1] eqn:E1.
  destruct (conn_Close (netc p) w1) as [e2 w2] eqn:E2.
  exists e1, (mkState (set_open false p) w1 (l ++ [CallClose])).
  exists e2, (mkState (set_open false p) w2 (l ++ [CallClose; CallClose])).
  unfold Close, IsOpen. repeat run_step. cbn. rewrite E1. cbn. rewrite E2.
  rewrite <- app_assoc. cbn. repeat split; reflexivity.
Qed.

(** ** Send *)

Lemma run_Send {W : Type} (msg : Message) (s : State W) :
  wlock (pipe s) = false ->
  run (Send msg) s = Some (Send_writes msg s).
Proof.
  intros Hw.
  destruct s as [p w l]. cbn [pipe] in Hw.
  unfold Send, Send_writes, defer, binary_Write_uint64.
  rewrite PutUint64_uint64.
  set (b1 := BigEndian.PutUint64 _).
  cbn [pipe world calls].
  rewrite run_bind, run_trigger. cbn [handle pipe]. cbn [held]. rewrite Hw.
  rewrite !run_bind, run_trigger.
  cbn [handle pipe world calls with_pipe].
  replace (netc (set_mutex WLock true p)) with (netc p) by (destruct p; reflexivity).
  destruct (conn_Write (netc p) b1 w) as [[e1|] w1].
  - cbn [run]. rewrite run_bind, run_trigger. cbn.
    destruct p; cbn in *; subst; reflexivity.
  - rewrite !run_bind, run_trigger.
    cbn [handle pipe world calls with_pipe].
    replace (netc (set_mutex WLock true p)) with (netc p) by (destruct p; reflexivity).
    destruct (conn_Write (netc p) (Header msg) w1) as [[e2|] w2].
    + cbn [run]. rewrite run_bind, run_trigger. cbn.
      rewrite <- app_assoc.
      destruct p; cbn in *; subst; reflexivity.
    + rewrite !run_bind, run_trigger.
      cbn [handle pipe world calls with_pipe].
      replace (netc (set_mutex WLock true p)) with (netc p) by (destruct p; reflexivity).
      destruct (conn_Write (netc p) (Body msg) w2) as [[e3|] w3];
        cbn [run]; rewrite run_bind, run_trigger; cbn;
        rewrite <- !app_assoc;
        destruct p; cbn in *; subst; reflexivity.
Qed.

(** C6: [Send] writes the combined length of header and body as a
    big-endian unsigned 64-bit value, then the header bytes, then the body
    bytes; an error of any of the three writes ends the send at once and is
    returned, the later writes are not made.  The length prefix decodes to
    the combined length. *)
Theorem Send_wire_format {W : Type} (msg : Message) (s : State W) :
  wlock (pipe s) = false ->
  run (Send msg) s = Some (Send_writes msg s) /\
  (len (Header msg) + len (Body msg) < 2 ^ 64 ->
   BigEndian.Uint64 (BigEndian.PutUint64 (len (Header msg) + len (Body msg)))
   = len (Header msg) + len (Body msg)).
Proof.
  intros Hw. split.
  - apply run_Send. exact Hw.
  - intros Hl. rewrite Uint64_PutUint64. apply uint64_small.
    unfold len in *. lia.
Qed.

(** The write of the header bytes fails: the body is not written, the
    error comes back, the mutex is free again. *)
Lemma Send_wire_format_witness :
  let msg := {| Header := [Byte.x01; Byte.x02]; Body := [Byte.x03] |} in
  let s := mkState (new_conn script_conn 1)
             (mkScript [None; Some (ErrIO 7)] [] 0) [] in
  wlock (pipe s) = false /\
  run (Send msg) s =
  Some (Some (ErrIO 7),
        mkState (new_conn script_conn 1)
          (mkScript [] (BigEndian.PutUint64 3) 0)
          [CallWrite (BigEndian.PutUint64 3); CallWrite [Byte.x01; Byte.x02]]) /\
  BigEndian.Uint64 (BigEndian.PutUint64 3) = 3.
Proof.
  intros msg s.
  assert (Hw : wlock (pipe s) = false) by reflexivity.
  split; [exact Hw|].
  destruct (Send_wire_format msg s Hw) as [Hrun Hdec].
  split; [exact Hrun|].
  apply Hdec. vm_compute. reflexivity.
Defined.

(** ** The handshake *)

Section Handshake.
Context {W : Type}.
Implicit Types s : State W.

Lemma handle_ReadFull_8 s :
  handle (NetReadFull (make 8)) s =
  let '(data, err, w) := conn_ReadFull (netc (pipe s)) 8 (world s) in
  Some ((fill (make 8) data, err),
        mkState (pipe s) w (calls s ++ [CallReadFull 8])).
Proof. reflexivity. Qed.

Lemma handshake_write_error s (e : error) (w1 : W) :
  conn_Write (netc (pipe s)) (handshake_header (lproto (pipe s))) (world s)
    = (Some e, w1) ->
  run handshake s =
  Some (Some e,
        mkState (pipe s) w1
          (calls s ++ [CallWrite (handshake_header (lproto (pipe s)))])).
Proof.
  intros Hw. unfold handshake, binary_Write_connHeader.
  rewrite run_bind, run_trigger. cbn [handle].
  rewrite run_bind, run_trigger. cbn [handle].
  fold (handshake_header (lproto (pipe s))). rewrite Hw. reflexivity.
Qed.

Lemma handshake_read_error s (e : error) (w1 w2 : W) (data : list byte) :
  conn_Write (netc (pipe s)) (handshake_header (lproto (pipe s))) (world s)
    = (None, w1) ->
  conn_ReadFull (netc (pipe s)) 8 w1 = (data, Some e, w2) ->
  run handshake s =
  Some (Some e,
        mkState (pipe s) (snd (conn_Close (netc (pipe s)) w2))
          (calls s ++ [CallWrite (handshake_header (lproto (pipe s)));
                       CallReadFull 8; CallClose])).
Proof.
  intros Hw Hr. unfold handshake, binary_Write_connHeader, binary_Read_connHeader.
  rewrite run_bind, run_trigger. cbn [handle].
  rewrite run_bind, run_trigger. cbn [handle].
  fold (handshake_header (lproto (pipe s))). rewrite Hw.
  rewrite !run_bind, run_trigger.
  rewrite handle_ReadFull_8. cbn [pipe world calls].
  rewrite Hr. cbn [run].
  rewrite run_bind, run_trigger. cbn [handle pipe world calls].
  destruct (conn_Close (netc (pipe s)) w2) as [ec w3]. cbn [run snd].
  rewrite <- !app_assoc. reflexivity.
Qed.


Lemma handshake_received s (w1 w2 : W) (data : list byte) :
  conn_Write (netc (pipe s)) (handshake_header (lproto (pipe s))) (world s)
    = (None, w1) ->
  conn_ReadFull (netc (pipe s)) 8 w1 = (data, None, w2) ->
  let h := connHeader.decode (fill (make 8) data) in
  let hdr := handshake_header (lproto (pipe s)) in
  run handshake s =
  Some (if bad_header h
        then (Some ErrBadHeader,
              mkState (pipe s) (snd (conn_Close (netc (pipe s)) w2))
                (calls s ++ [CallWrite hdr; CallReadFull 8; CallClose]))
        else if byte_neq (connHeader.Version h) Byte.x00
        then (Some ErrBadVersion,
              mkState (pipe s) (snd (conn_Close (netc (pipe s)) w2))
                (calls s ++ [CallWrite hdr; CallReadFull 8; CallClose]))
        else (None,
              mkState (set_open true (set_rproto (connHeader.Proto h) (pipe s)))
                w2 (calls s ++ [CallWrite hdr; CallReadFull 8]))).
Proof.
  intros Hw Hr h hdr.
  unfold handshake, binary_Write_connHeader, binary_Read_connHeader.
  rewrite run_bind, run_trigger. cbn [handle].
  rewrite run_bind, run_trigger. cbn [handle].
  fold (handshake_header (lproto (pipe s))). rewrite Hw.
  rewrite !run_bind, run_trigger.
  rewrite handle_ReadFull_8. cbn [pipe world calls].
  rewrite Hr. cbn [run]. fold h. fold (bad_header h). fold hdr.
  destruct (bad_header h).
  - rewrite run_bind, run_trigger. cbn [handle pipe world calls].
    destruct (conn_Close (netc (pipe s)) w2) as [ec w3]. cbn [run snd].
    rewrite <- !app_assoc. reflexivity.
  - destruct (byte_neq (connHeader.Version h) Byte.x00).
    + rewrite run_bind, run_trigger. cbn [handle pipe world calls].
      destruct (conn_Close (netc (pipe s)) w2) as [ec w3]. cbn [run snd].
      rewrite <- !app_assoc. reflexivity.
    + rewrite !run_bind, !run_trigger. cbn [handle pipe world calls with_pipe].
      rewrite run_bind, run_trigger. cbn [handle pipe world calls with_pipe run].
      rewrite <- !app_assoc. reflexivity.
Qed.

End Handshake.

Lemma byte_neq_false (a b : byte) : byte_neq a b = false <-> a = b.
Proof.
  unfold byte_neq. rewrite negb_false_iff. split.
  - apply Byte.byte_dec_bl.
  - apply Byte.byte_dec_lb.
Qed.

Lemma bad_header_false (h : connHeader.t) :
  bad_header h = false <->
  connHeader.Zero h = Byte.x00 /\ connHeader.S h = "S"%byte /\
  connHeader.P h = "P"%byte /\ connHeader.Rsvd h = 0.
Proof.
  unfold bad_header. rewrite !orb_false_iff, !byte_neq_false, negb_false_iff, Z.eqb_eq.
  tauto.
Qed.

(** C3: once the header of the peer has been received, a wrong first
    reserved byte, magic byte or reserved trailer makes the handshake close
    the connection and fail with [ErrBadHeader], whatever the version byte
    is; the handshake closes the connection and fails with [ErrBadVersion]
    exactly when those fields are right and the version byte is not zero. *)
Theorem handshake_validation_order {W : Type} (s : State W) (w1 w2 : W)
    (data : list byte) :
  conn_Write (netc (pipe s)) (handshake_header (lproto (pipe s))) (world s)
    = (None, w1) ->
  conn_ReadFull (netc (pipe s)) 8 w1 = (data, None, w2) ->
  let h := connHeader.decode (fill (make 8) data) in
  let header_ok :=
    connHeader.Zero h = Byte.x00 /\ connHeader.S h = "S"%byte /\
    connHeader.P h = "P"%byte /\ connHeader.Rsvd h = 0 in
  let closed_state :=
    mkState (pipe s) (snd (conn_Close (netc (pipe s)) w2))
      (calls s ++ [CallWrite (handshake_header (lproto (pipe s)));
                   CallReadFull 8; CallClose]) in
  (~ header_ok <-> run handshake s = Some (Some ErrBadHeader, closed_state)) /\
  (header_ok /\ connHeader.Version h <> Byte.x00 <->
   run handshake s = Some (Some ErrBadVersion, closed_state)).
Proof.
  intros Hw Hr h header_ok closed_state.
  rewrite (handshake_received s w1 w2 data Hw Hr). fold h.
  pose proof (bad_header_false h) as Hb. fold header_ok in Hb.
  pose proof (byte_neq_false (connHeader.Version h) Byte.x00) as Hv.
  destruct (bad_header h).
  - assert (~ header_ok) by (intros Hok; apply Hb in Hok; discriminate).
    split; split; try tauto; try discriminate; try (intros _; reflexivity).
  - assert (header_ok) by (apply Hb; reflexivity).
    destruct (byte_neq (connHeader.Version h) Byte.x00).
    + assert (connHeader.Version h <> Byte.x00)
        by (intros Hz; apply Hv in Hz; discriminate).
      split; split; try tauto; try discriminate; try (intros _; reflexivity).
    + assert (connHeader.Version h = Byte.x00) by (apply Hv; reflexivity).
      split; split; try tauto; discriminate.
Qed.

(** The peer sent magic ['X','P'] and version 1: the header check comes
    first. *)
Lemma handshake_validation_order_witness :
  let c := wire_conn EndB in
  let w :=
    mkWire [Byte.x00; "X"%byte; "P"%byte; Byte.x01;
            Byte.x00; Byte.x01; Byte.x00; Byte.x00] [] false false in
  let s := mkState (new_conn c 2) w [] in
  let w1 := push EndB (handshake_header 2) w in
  let w2 := set_inbox EndB [] w1 in
  conn_Write c (handshake_header 2) w = (None, w1) /\
  conn_ReadFull c 8 w1 = (a2b w, None, w2) /\
  run handshake s =
  Some (Some ErrBadHeader,
        mkState (new_conn c 2) (shut EndB w2)
          [CallWrite (handshake_header 2); CallReadFull 8; CallClose]).
Proof.
  intros c w s w1 w2.
  split; [reflexivity|]. split; [reflexivity|].
  apply (handshake_validation_order s w1 w2 (a2b w) eq_refl eq_refl).
  cbn. intros [_ [HS _]]. discriminate HS.
Defined.

Lemma no_write_in (l : list Call) :
  forallb (fun c => match c with CallWrite _ => false | _ => true end) l = true ->
  forall b, ~ In (CallWrite b) l.
Proof.
  intros Hl b Hin. rewrite forallb_forall in Hl.
  specialize (Hl _ Hin). discriminate Hl.
Qed.

(** C7: the handshake sends exactly eight bytes, in one write and before
    anything else: a zero byte, the magic bytes 'S' (0x53) and 'P' (0x50),
    a zero version byte, the local protocol number as two bytes in
    big-endian order, and two zero bytes. *)
Theorem handshake_header_encoding {W : Type} (s : State W) :
  0 <= lproto (pipe s) < 65536 ->
  exists (hi lo : byte) (r : option error) (s' : State W) (rest : list Call),
    handshake_header (lproto (pipe s)) =
      [Byte.x00; Byte.x53; Byte.x50; Byte.x00; hi; lo; Byte.x00; Byte.x00] /\
    byte.unsigned hi * 256 + byte.unsigned lo = lproto (pipe s) /\
    BigEndian.Uint16 [hi; lo] = lproto (pipe s) /\
    run handshake s = Some (r, s') /\
    calls s' = calls s ++ CallWrite (handshake_header (lproto (pipe s))) :: rest /\
    (forall b, ~ In (CallWrite b) rest).
Proof.
  intros Hlp.
  set (lp := lproto (pipe s)) in *.
  exists (byte.of_Z (Z.shiftr lp 8)), (byte.of_Z lp).
  assert (Henc : BigEndian.Uint16 [byte.of_Z (Z.shiftr lp 8); byte.of_Z lp] = lp).
  { change [byte.of_Z (Z.shiftr lp 8); byte.of_Z lp] with (BigEndian.PutUint16 lp).
    rewrite Uint16_PutUint16. unfold uint16. apply Z.mod_small. lia. }
  assert (Hsum : byte.unsigned (byte.of_Z (Z.shiftr lp 8)) * 256
                 + byte.unsigned (byte.of_Z lp) = lp).
  { rewrite !unsigned_of_Z_mod, Z.shiftr_div_pow2 by lia.
    Z.div_mod_to_equations. lia. }
  destruct (conn_Write (netc (pipe s)) (handshake_header lp) (world s))
    as [[e|] w1] eqn:Hw.
  - eexists _, _, []. rewrite (handshake_write_error s e w1 Hw).
    repeat split; try assumption; try reflexivity. intros b [].
  - destruct (conn_ReadFull (netc (pipe s)) 8 w1) as [[data [e|]] w2] eqn:Hr.
    + eexists _, _, [CallReadFull 8; CallClose].
      rewrite (handshake_read_error s e w1 w2 data Hw Hr).
      repeat split; try assumption; try reflexivity.
      apply no_write_in. reflexivity.
    + pose proof (handshake_received s w1 w2 data Hw Hr) as Hrun.
      cbv zeta in Hrun. rewrite Hrun.
      destruct (bad_header _);
        [| destruct (byte_neq _ _)];
        eexists _, _, _;
        (repeat split; try assumption; try reflexivity);
        apply no_write_in; reflexivity.
Qed.

(** Protocol number 0x1234 goes out as the bytes 0x12, 0x34. *)
Lemma handshake_header_encoding_witness :
  let s := mkState (new_conn script_conn 4660) (mkScript [] [] 0) [] in
  0 <= lproto (pipe s) < 65536 /\
  exists (hi lo : byte) (r : option error) (s' : State Script) (rest : list Call),
    handshake_header (lproto (pipe s)) =
      [Byte.x00; Byte.x53; Byte.x50; Byte.x00; hi; lo; Byte.x00; Byte.x00] /\
    byte.unsigned hi * 256 + byte.unsigned lo = lproto (pipe s) /\
    BigEndian.Uint16 [hi; lo] = lproto (pipe s) /\
    run handshake s = Some (r, s') /\
    calls s' = calls s ++ CallWrite (handshake_header (lproto (pipe s))) :: rest /\
    (forall b, ~ In (CallWrite b) rest).
Proof.
  intros s.
  assert (H : 0 <= lproto (pipe s) < 65536) by (cbn; lia).
  split; [exact H|]. exact (handshake_header_encoding s H).
Defined.

Example handshake_header_0x1234 :
  handshake_header 4660 =
  [Byte.x00; "S"%byte; "P"%byte; Byte.x00; Byte.x12; Byte.x34; Byte.x00; Byte.x00].
Proof. reflexivity. Qed.

(** C4, the half the code does not keep: when the write of the handshake
    header fails, the handshake returns the error of the write unchanged,
    but nothing closes the stream. *)
Theorem handshake_write_error_leaves_stream_open :
  let s := mkState (new_conn script_conn 1) (mkScript [Some (ErrIO 5)] [] 0) [] in
  exists s',
    run handshake s = Some (Some (ErrIO 5), s') /\
    calls s' = [CallWrite (handshake_header 1)] /\
    closes (world s') = 0%nat.
Proof.
  intros s. eexists. split; [|split].
  - apply (handshake_write_error s (ErrIO 5) (mkScript [] [] 0)). reflexivity.
  - reflexivity.
  - reflexivity.
Qed.

(** The other half of C4: an error of the read is returned unchanged after
    the stream has been closed. *)
Lemma handshake_read_error_closes :
  let s := mkState (new_conn script_conn 1) (mkScript [] [] 0) [] in
  exists s',
    run handshake s = Some (Some EOF, s') /\
    calls s' = [CallWrite (handshake_header 1); CallReadFull 8; CallClose] /\
    closes (world s') = 1%nat.
Proof.
  intros s. eexists. split; [|split].
  - apply (handshake_read_error s EOF (mkScript [] (handshake_header 1) 0)
             (mkScript [] (handshake_header 1) 0) []); reflexivity.
  - reflexivity.
  - reflexivity.
Qed.

(** ** The constructor *)

(** C5: [NewConnPipe] returns a pipe exactly when the handshake on the
    fresh struct returns no error, and returns the handshake's error and no
    pipe otherwise.  A pipe that is returned has the constructor's argument
    as local protocol, is open, and has as remote protocol the protocol
    number of the header received from the peer. *)
Theorem NewConnPipe_postcondition {W : Type} (c : NetConn W) (lp : Z) (w : W) :
  exists (r : option (conn W) * option error) (s' : State W),
    NewConnPipe c lp w = Some (r, s') /\
    run handshake (mkState (new_conn c lp) w []) = Some (snd r, s') /\
    match r with
    | (Some p, None) =>
        p = pipe s' /\
        run LocalProtocol s' = Some (lp, s') /\
        run IsOpen s' = Some (true, s') /\
        exists (w1 : W) (data : list byte),
          conn_Write c (handshake_header lp) w = (None, w1) /\
          conn_ReadFull c 8 w1 = (data, None, world s') /\
          run RemoteProtocol s' =
          Some (connHeader.Proto (connHeader.decode (fill (make 8) data)), s') /\
          connHeader.Proto (connHeader.decode (fill (make 8) data)) =
          BigEndian.Uint16 (skipn 4 (fill (make 8) data))
    | (None, Some e) => True
    | _ => False
    end.
Proof.
  unfold NewConnPipe. fold (new_conn c lp).
  set (s := mkState (new_conn c lp) w []).
  destruct (conn_Write c (handshake_header lp) w) as [[e|] w1] eqn:Hw.
  - rewrite (handshake_write_error s e w1 Hw).
    eexists (None, Some e), _. repeat split.
  - destruct (conn_ReadFull c 8 w1) as [[data [e|]] w2] eqn:Hr.
    + rewrite (handshake_read_error s e w1 w2 data Hw Hr).
      eexists (None, Some e), _. repeat split.
    + pose proof (handshake_received s w1 w2 data Hw Hr) as Hrun.
      cbv zeta in Hrun. rewrite Hrun.
      destruct (bad_header _); [| destruct (byte_neq _ _)].
      * eexists (None, Some ErrBadHeader), _. repeat split.
      * eexists (None, Some ErrBadVersion), _. repeat split.
      * eexists (Some _, None), _. cbn [snd pipe world].
        split; [reflexivity|]. split; [reflexivity|].
        split; [reflexivity|]. split; [reflexivity|]. split; [reflexivity|].
        exists w1, data. repeat split; assumption.
Qed.

(** Pipes with local protocol numbers 2 and 1 at the two ends of a wire:
    the end that finds the header of its peer learns the number 1. *)
Example NewConnPipe_learns_peer_protocol :
  exists p s',
    NewConnPipe (wire_conn EndB) 2
      (mkWire (handshake_header 1) [] false false) = Some ((Some p, None), s') /\
    rproto p = 1 /\ lproto p = 2 /\ open p = true /\
    world s' = mkWire [] (handshake_header 2) false false.
Proof. eexists _, _. repeat split. Qed.

(** A peer that speaks version 1 gets no pipe. *)
Example NewConnPipe_bad_version :
  exists s',
    NewConnPipe (wire_conn EndB) 2
      (mkWire [Byte.x00; "S"%byte; "P"%byte; Byte.x01;
               Byte.x00; Byte.x01; Byte.x00; Byte.x00] [] false false)
    = Some ((None, Some ErrBadVersion), s') /\
    closedB (world s') = true.
Proof. eexists. split; reflexivity. Qed.

(** ** Recv *)

Section RecvFacts.
Context {W : Type}.
Implicit Types s : State W.

Lemma run_lock_defer {A : Type} (m : mutex) (body : Prog A) s :
  held m (pipe s) = false ->
  run (trigger (MuLock m) ;; defer (trigger (MuUnlock m)) body) s =
  match run body (with_pipe (set_mutex m true (pipe s)) s) with
  | Some (r, s1) =>
      if held m (pipe s1)
      then Some (r, with_pipe (set_mutex m false (pipe s1)) s1)
      else None
  | None => None
  end.
Proof.
  intros Hm. unfold defer.
  rewrite run_bind, run_trigger. cbn [handle]. rewrite Hm.
  rewrite run_bind.
  destruct (run body _) as [[r s1]|]; [|reflexivity].
  rewrite run_bind, run_trigger. cbn [handle].
  destruct (held m (pipe s1)); reflexivity.
Qed.

Lemma netc_set_mutex (m : mutex) (b : bool) (p : conn W) :
  netc (set_mutex m b p) = netc p.
Proof. destruct m; reflexivity. Qed.

Lemma held_set_mutex (m : mutex) (b : bool) (p : conn W) :
  held m (set_mutex m b p) = b.
Proof. destruct m; reflexivity. Qed.

Lemma handle_ReadFull (buf : list byte) s :
  handle (NetReadFull buf) s =
  if (length buf =? 0)%nat then Some ((buf, None), s)
  else
    let '(data, err, w) :=
      conn_ReadFull (netc (pipe s)) (length buf) (world s) in
    Some ((fill buf data, err),
          mkState (pipe s) w (calls s ++ [CallReadFull (length buf)])).
Proof. cbn [handle]. destruct (length buf); reflexivity. Qed.

Lemma make_length (n : Z) : length (make n) = Z.to_nat n.
Proof. apply repeat_length. Qed.

Lemma fill_length (buf data : list byte) : length (fill buf data) = length buf.
Proof.
  unfold fill. rewrite length_app, length_firstn, length_skipn. lia.
Qed.

(** The three ways [Recv] goes on after the lock has been taken. *)

Lemma Recv_prefix_error s (e : error) (data : list byte) (w1 : W) :
  rlock (pipe s) = false ->
  conn_ReadFull (netc (pipe s)) 8 (world s) = (data, Some e, w1) ->
  run Recv s =
  Some ((None, Some e), mkState (pipe s) w1 (calls s ++ [CallReadFull 8])).
Proof.
  intros Hl Hr. unfold Recv. rewrite run_lock_defer by exact Hl.
  unfold binary_Read_int64. rewrite !run_bind, run_trigger, handle_ReadFull_8.
  cbn [with_pipe pipe world calls]. rewrite netc_set_mutex, Hr.
  cbn [run pipe with_pipe world calls]. rewrite held_set_mutex.
  rewrite unlock_lock by exact Hl. reflexivity.
Qed.

Lemma Recv_rejects s (data : list byte) (w1 : W) :
  rlock (pipe s) = false ->
  conn_ReadFull (netc (pipe s)) 8 (world s) = (data, None, w1) ->
  let L := int64 (BigEndian.Uint64 (fill (make 8) data)) in
  (L >? 1024 * 1024) || (L <? 0) = true ->
  run Recv s =
  Some ((None, Some ErrTooLong),
        mkState (pipe s) (snd (conn_Close (netc (pipe s)) w1))
          (calls s ++ [CallReadFull 8; CallClose])).
Proof.
  intros Hl Hr L HL. unfold Recv. rewrite run_lock_defer by exact Hl.
  unfold binary_Read_int64. rewrite !run_bind, run_trigger, handle_ReadFull_8.
  cbn [with_pipe pipe world calls]. rewrite netc_set_mutex, Hr.
  cbn [run]. fold L. rewrite HL.
  rewrite run_bind, run_trigger. cbn [handle pipe world calls].
  rewrite netc_set_mutex.
  destruct (conn_Close (netc (pipe s)) w1) as [ec w2].
  cbn [run pipe with_pipe world calls snd]. rewrite held_set_mutex.
  rewrite unlock_lock by exact Hl. rewrite <- app_assoc. reflexivity.
Qed.

Lemma Recv_accepts s (data : list byte) (w1 : W) :
  rlock (pipe s) = false ->
  conn_ReadFull (netc (pipe s)) 8 (world s) = (data, None, w1) ->
  let L := int64 (BigEndian.Uint64 (fill (make 8) data)) in
  (L >? 1024 * 1024) || (L <? 0) = false ->
  run Recv s =
  Some (if (Z.to_nat L =? 0)%nat
        then ((Some {| Header := []; Body := make L |}, None),
              mkState (pipe s) w1 (calls s ++ [CallReadFull 8]))
        else
          let '(body, err, w2) :=
            conn_ReadFull (netc (pipe s)) (Z.to_nat L) w1 in
          (match err with
           | Some e => (None, Some e)
           | None => (Some {| Header := []; Body := fill (make L) body |}, None)
           end,
           mkState (pipe s) w2
             (calls s ++ [CallReadFull 8; CallReadFull (Z.to_nat L)]))).
Proof.
  intros Hl Hr L HL. unfold Recv. rewrite run_lock_defer by exact Hl.
  unfold binary_Read_int64. rewrite !run_bind, run_trigger, handle_ReadFull_8.
  cbn [with_pipe pipe world calls]. rewrite netc_set_mutex, Hr.
  cbn [run]. fold L. rewrite HL.
  cbn [Header Body].
  rewrite run_bind, run_trigger, handle_ReadFull, make_length.
  destruct (Z.to_nat L =? 0)%nat.
  - cbn [run pipe with_pipe world calls]. rewrite held_set_mutex.
    rewrite unlock_lock by exact Hl. reflexivity.
  - cbn [pipe world calls]. rewrite netc_set_mutex.
    destruct (conn_ReadFull (netc (pipe s)) (Z.to_nat L) w1) as [[body [e|]] w2];
      cbn [run pipe with_pipe world calls]; rewrite held_set_mutex;
      rewrite unlock_lock by exact Hl; rewrite <- app_assoc; reflexivity.
Qed.

End RecvFacts.

(** C2: once the eight bytes of the length have been read, [Recv] closes
    the stream exactly when the length, read as a signed 64-bit integer, is
    greater than 1,048,576 or negative, and it then fails with
    [ErrTooLong], the call of [Close] being its last call.  A length from 0
    to 1,048,576 is accepted: the stream is not closed, the only call after
    the read of the length is the read of that many bytes (none for the
    length 0), the stream is left as that read leaves it, and [Recv]
    returns a message with a body of that length or the error of the read
    of the body.  The pipe is as before in every case. *)
Theorem Recv_length_bound {W : Type} (s : State W) (data : list byte) (w1 : W) :
  rlock (pipe s) = false ->
  conn_ReadFull (netc (pipe s)) 8 (world s) = (data, None, w1) ->
  let L := int64 (BigEndian.Uint64 (fill (make 8) data)) in
  exists (r : option Message * option error) (s' : State W) (new : list Call),
    run Recv s = Some (r, s') /\
    calls s' = calls s ++ new /\
    pipe s' = pipe s /\
    (In CallClose new <-> L > 1048576 \/ L < 0) /\
    (r = (None, Some ErrTooLong) /\ In CallClose new <->
     L > 1048576 \/ L < 0) /\
    (L > 1048576 \/ L < 0 ->
     r = (None, Some ErrTooLong) /\
     new = [CallReadFull 8; CallClose] /\
     world s' = snd (conn_Close (netc (pipe s)) w1)) /\
    (0 <= L <= 1048576 ->
     (L = 0 /\
      r = (Some {| Header := []; Body := [] |}, None) /\
      new = [CallReadFull 8] /\
      world s' = w1)
     \/ (0 < L /\
         exists body err w2,
           conn_ReadFull (netc (pipe s)) (Z.to_nat L) w1 = (body, err, w2) /\
           r = match err with
               | Some e => (None, Some e)
               | None =>
                   (Some {| Header := []; Body := fill (make L) body |}, None)
               end /\
           new = [CallReadFull 8; CallReadFull (Z.to_nat L)] /\
           world s' = w2)) /\
    (0 <= L <= 1048576 ->
     (exists msg, r = (Some msg, None) /\ Header msg = [] /\ len (Body msg) = L)
     \/ (exists e body w2,
           r = (None, Some e) /\
           conn_ReadFull (netc (pipe s)) (Z.to_nat L) w1 = (body, Some e, w2))).
Proof.
  intros Hl Hr L.
  destruct ((L >? 1024 * 1024) || (L <? 0)) eqn:HL.
  - assert (Hrej : L > 1048576 \/ L < 0).
    { apply orb_true_iff in HL. destruct HL as [H|H]; [left|right]; lia. }
    rewrite (Recv_rejects s data w1 Hl Hr HL).
    eexists _, _, [CallReadFull 8; CallClose].
    split; [reflexivity|]. split; [reflexivity|]. split; [reflexivity|].
    split; [|split; [|split; [|split]]].
    + split; [intros _; exact Hrej|]. intros _. right; left; reflexivity.
    + split; [intros _; exact Hrej|]. intros _. split; [reflexivity|].
      right; left; reflexivity.
    + intros _. repeat split; reflexivity.
    + intros Hacc. exfalso. lia.
    + intros Hacc. exfalso. lia.
  - assert (Hacc : 0 <= L <= 1048576).
    { apply orb_false_iff in HL. destruct HL as [H1 H2]. lia. }
    pose proof (Recv_accepts s data w1 Hl Hr HL) as Hrun.
    cbv zeta in Hrun. fold L in Hrun. rewrite Hrun. clear Hrun.
    destruct (Z.to_nat L =? 0)%nat eqn:H0.
    + assert (HL0 : L = 0) by (apply Nat.eqb_eq in H0; lia).
      eexists _, _, [CallReadFull 8].
      split; [reflexivity|]. split; [reflexivity|]. split; [reflexivity|].
      split; [|split; [|split; [|split]]].
      * split; [intros [Hc|[]]; discriminate Hc | intros Hrej; exfalso; lia].
      * split; [intros [Hc _]; discriminate Hc | intros Hrej; exfalso; lia].
      * intros Hrej. exfalso. lia.
      * intros _. left. split; [exact HL0|]. rewrite HL0.
        repeat split; reflexivity.
      * intros _. left. eexists. split; [reflexivity|]. split; [reflexivity|].
        cbn [Body]. unfold len. rewrite make_length. lia.
    + assert (HLpos : 0 < L) by (apply Nat.eqb_neq in H0; lia).
      destruct (conn_ReadFull (netc (pipe s)) (Z.to_nat L) w1)
        as [[body err] w2] eqn:Hb.
      exists (match err with
              | Some e => (None, Some e)
              | None =>
                  (Some {| Header := []; Body := fill (make L) body |}, None)
              end),
        (mkState (pipe s) w2
           (calls s ++ [CallReadFull 8; CallReadFull (Z.to_nat L)])),
        [CallReadFull 8; CallReadFull (Z.to_nat L)].
      split; [destruct err; reflexivity|].
      split; [reflexivity|]. split; [reflexivity|].
      split; [|split; [|split; [|split]]].
      * split; [|intros Hrej; exfalso; lia].
        intros [Hc|[Hc|[]]]; discriminate Hc.
      * split; [|intros Hrej; exfalso; lia].
        intros [_ [Hc|[Hc|[]]]]; discriminate Hc.
      * intros Hrej. exfalso. lia.
      * intros _. right. split; [exact HLpos|]. exists body, err, w2.
        repeat split; reflexivity.
      * intros _. destruct err as [e|].
        -- right. exists e, body, w2. split; reflexivity.
        -- left. eexists. split; [reflexivity|]. split; [reflexivity|].
           cbn [Body]. unfold len. rewrite fill_length, make_length. lia.
Qed.

(** The two sides of the bound.  A declared length of 1,048,577 is
    rejected and the stream is closed; a declared length of 1,048,576 is
    accepted, the body is read and the stream stays open. *)
Lemma Recv_length_bound_witness :
  let w := mkWire (BigEndian.PutUint64 1048577) [] false false in
  let s := mkState (new_conn (wire_conn EndB) 2) w [] in
  let body := repeat Byte.x07 (Z.to_nat 1048576) in
  let v := mkWire (BigEndian.PutUint64 1048576 ++ body) [] false false in
  let t := mkState (new_conn (wire_conn EndB) 2) v [] in
  (rlock (pipe s) = false /\
   conn_ReadFull (netc (pipe s)) 8 (world s)
     = (BigEndian.PutUint64 1048577, None, mkWire [] [] false false) /\
   exists s',
     run Recv s = Some ((None, Some ErrTooLong), s') /\
     calls s' = [CallReadFull 8; CallClose] /\
     closedB (world s') = true) /\
  (rlock (pipe t) = false /\
   conn_ReadFull (netc (pipe t)) 8 (world t)
     = (BigEndian.PutUint64 1048576, None, mkWire body [] false false) /\
   exists t',
     run Recv t =
       Some ((Some {| Header := []; Body := fill (make 1048576) body |}, None),
             t') /\
     calls t' = [CallReadFull 8; CallReadFull (Z.to_nat 1048576)] /\
     world t' = mkWire [] [] false false).
Proof.
  intros w s body v t. split.
  - split; [reflexivity|]. split; [reflexivity|].
    destruct (Recv_length_bound s (BigEndian.PutUint64 1048577)
                (mkWire [] [] false false) eq_refl eq_refl)
      as (r & s' & new & Hrun & Hcalls & _ & _ & _ & Hrej & _).
    assert (HL : int64 (BigEndian.Uint64
                          (fill (make 8) (BigEndian.PutUint64 1048577)))
                 > 1048576
                 \/ int64 (BigEndian.Uint64
                             (fill (make 8) (BigEndian.PutUint64 1048577))) < 0)
      by (left; vm_compute; reflexivity).
    destruct (Hrej HL) as (-> & -> & Hw).
    exists s'. split; [exact Hrun|]. split; [exact Hcalls|].
    rewrite Hw. reflexivity.
  - assert (Hread : conn_ReadFull (netc (pipe t)) 8 (world t)
                    = (BigEndian.PutUint64 1048576, None,
                       mkWire body [] false false)) by reflexivity.
    split; [reflexivity|]. split; [exact Hread|].
    destruct (Recv_length_bound t (BigEndian.PutUint64 1048576)
                (mkWire body [] false false) eq_refl Hread)
      as (r & t' & new & Hrun & Hcalls & _ & _ & _ & _ & Hacc & _).
    assert (HL : int64 (BigEndian.Uint64
                          (fill (make 8) (BigEndian.PutUint64 1048576)))
                 = 1048576) by (vm_compute; reflexivity).
    rewrite HL in Hacc.
    destruct Hacc as [[H0 _] | (_ & b & err & w2 & Hb & Hres & Hnew & Hw)];
      [lia | discriminate H0 |].
    assert (Hbody : conn_ReadFull (netc (pipe t)) (Z.to_nat 1048576)
                      (mkWire body [] false false)
                    = (body, None, mkWire [] [] false false)).
    { unfold t, v. cbn [pipe netc new_conn wire_conn conn_ReadFull].
      unfold wire_ReadFull. cbn [closed closedB inbox a2b set_inbox].
      replace (length body) with (Z.to_nat 1048576)
        by (symmetry; apply repeat_length).
      rewrite Nat.leb_refl.
      replace (Z.to_nat 1048576) with (length body) by apply repeat_length.
      rewrite firstn_all, skipn_all. reflexivity. }
    rewrite Hbody in Hb. injection Hb as <- <- <-.
    exists t'. rewrite Hrun, Hres, Hcalls, Hnew, Hw. repeat split.
Defined.

(** ** Frames over a wire *)

Lemma fill_full (buf data : list byte) :
  length data = length buf -> fill buf data = data.
Proof.
  intros Hlen. unfold fill.
  rewrite <- Hlen, firstn_all, skipn_all2 by lia. apply app_nil_r.
Qed.

Lemma frame_length (msg : Message) :
  length (frame msg) = (8 + (length (Header msg) + length (Body msg)))%nat.
Proof. unfold frame. rewrite !length_app, PutUint64_length. reflexivity. Qed.

(** [Send] at end A of a wire that is not closed there: the frame joins
    the bytes under way to end B. *)
Lemma Send_wire (msg : Message) (pa : conn Wire) (w : Wire) (l : list Call) :
  netc pa = wire_conn EndA ->
  wlock pa = false ->
  closedA w = false ->
  run (Send msg) (mkState pa w l) =
  Some (None,
        mkState pa (push EndA (frame msg) w)
          (l ++ [CallWrite (BigEndian.PutUint64
                              (len (Header msg) + len (Body msg)));
                 CallWrite (Header msg); CallWrite (Body msg)])).
Proof.
  intros Hc Hl Hcl.
  rewrite run_Send by exact Hl.
  unfold Send_writes. cbn [pipe world calls]. rewrite Hc.
  destruct w as [q1 q2 cA cB]. cbn [closedA] in Hcl. subst cA.
  cbn [wire_conn conn_Write wire_Write closed push a2b b2a closedA closedB].
  unfold frame. rewrite <- !app_assoc. reflexivity.
Qed.

(** [Recv] at end B of a wire that is not closed there, when a frame within
    the bound is at the front of the bytes under way: the message comes
    back with header and body together as its body, and what follows the
    frame stays. *)
Lemma Recv_wire (msg : Message) (rest : list byte) (pb : conn Wire)
    (w : Wire) (l : list Call) :
  netc pb = wire_conn EndB ->
  rlock pb = false ->
  closedB w = false ->
  a2b w = frame msg ++ rest ->
  len (Header msg) + len (Body msg) <= 1048576 ->
  exists new,
    run Recv (mkState pb w l) =
    Some ((Some (delivered msg), None),
          mkState pb (set_inbox EndB rest w) (l ++ new)).
Proof.
  intros Hc Hl Hcl Hq Hlen.
  set (n := len (Header msg) + len (Body msg)) in *.
  assert (Hn : 0 <= n) by (unfold n, len; lia).
  set (s := mkState pb w l).
  assert (Hr : conn_ReadFull (netc (pipe s)) 8 (world s) =
               (BigEndian.PutUint64 n, None,
                set_inbox EndB (Header msg ++ Body msg ++ rest) w)).
  { cbn [s pipe world]. rewrite Hc. cbn [wire_conn conn_ReadFull].
    unfold wire_ReadFull. cbn [closed inbox]. rewrite Hcl, Hq.
    unfold frame. fold n. rewrite <- !app_assoc. reflexivity. }
  assert (HL : int64 (BigEndian.Uint64 (fill (make 8) (BigEndian.PutUint64 n))) = n).
  { rewrite fill_full by reflexivity.
    rewrite Uint64_PutUint64, uint64_small by lia. apply int64_small. lia. }
  assert (Hacc : (int64 (BigEndian.Uint64
                    (fill (make 8) (BigEndian.PutUint64 n))) >? 1024 * 1024)
                 || (int64 (BigEndian.Uint64
                       (fill (make 8) (BigEndian.PutUint64 n))) <? 0) = false).
  { rewrite HL. apply orb_false_iff. split; lia. }
  pose proof (Recv_accepts s _ _ Hl Hr Hacc) as Hrun.
  cbv zeta in Hrun. rewrite HL in Hrun. rewrite Hrun. clear Hrun.
  assert (Hnat : Z.to_nat n = (length (Header msg ++ Body msg))%nat).
  { unfold n, len. rewrite length_app. lia. }
  destruct (Z.to_nat n =? 0)%nat eqn:H0.
  - apply Nat.eqb_eq in H0. rewrite H0 in Hnat.
    symmetry in Hnat. apply length_zero_iff_nil in Hnat.
    assert (Hh : Header msg = []) by (destruct (Header msg); [reflexivity | discriminate]).
    assert (Hb : Body msg = []) by (rewrite Hh in Hnat; exact Hnat).
    exists [CallReadFull 8]. unfold delivered, make. rewrite H0, Hh, Hb.
    reflexivity.
  - cbn [s pipe]. rewrite Hc. cbn [wire_conn conn_ReadFull].
    unfold wire_ReadFull at 1.
    replace (closed EndB (set_inbox EndB (Header msg ++ Body msg ++ rest) w))
      with false by (symmetry; exact Hcl).
    cbn [inbox set_inbox a2b].
    rewrite Hnat, app_assoc.
    set (hb := Header msg ++ Body msg).
    rewrite (length_app hb rest).
    replace (length hb <=? length hb + length rest)%nat
      with true by (symmetry; apply Nat.leb_le; lia).
    rewrite firstn_app, firstn_all, Nat.sub_diag, firstn_O, app_nil_r.
    rewrite skipn_app, skipn_all, Nat.sub_diag, skipn_O, app_nil_l.
    rewrite fill_full by (rewrite make_length; unfold hb; lia).
    exists [CallReadFull 8; CallReadFull (length hb)].
    unfold delivered. reflexivity.
Qed.

(** C1: a message whose header and body together have at most 1,048,576
    bytes, sent at one end of a wire and received at the other, comes back
    as a message with an empty header whose body is the header bytes
    followed by the body bytes. *)
Theorem Send_Recv_roundtrip (H B : list byte) (pa pb : conn Wire) (w : Wire)
    (la lb : list Call) :
  len H + len B <= 1048576 ->
  netc pa = wire_conn EndA -> wlock pa = false ->
  netc pb = wire_conn EndB -> rlock pb = false ->
  closedA w = false -> closedB w = false -> a2b w = [] ->
  exists (sa sb : State Wire),
    run (Send {| Header := H; Body := B |}) (mkState pa w la) = Some (None, sa) /\
    run Recv (mkState pb (world sa) lb) =
      Some ((Some {| Header := []; Body := H ++ B |}, None), sb) /\
    a2b (world sb) = [].
Proof.
  intros Hlen Hca Hla Hcb Hlb HclA HclB Hq.
  set (msg := {| Header := H; Body := B |}).
  rewrite (Send_wire msg pa w la Hca Hla HclA).
  destruct (Recv_wire msg [] pb (push EndA (frame msg) w) lb Hcb Hlb)
    as [new Hrun].
  - exact HclB.
  - cbn [push a2b]. rewrite Hq, app_nil_r. reflexivity.
  - exact Hlen.
  - eexists _, _. split; [reflexivity|]. split; [exact Hrun|]. reflexivity.
Qed.

Lemma Send_Recv_roundtrip_witness :
  let H := [Byte.x01; Byte.x02] in
  let B := [Byte.x03] in
  let w := mkWire [] [] false false in
  let pa := new_conn (wire_conn EndA) 1 in
  let pb := new_conn (wire_conn EndB) 2 in
  len H + len B <= 1048576 /\
  exists (sa sb : State Wire),
    run (Send {| Header := H; Body := B |}) (mkState pa w []) = Some (None, sa) /\
    run Recv (mkState pb (world sa) []) =
      Some ((Some {| Header := []; Body := [Byte.x01; Byte.x02; Byte.x03] |}, None), sb) /\
    a2b (world sb) = [].
Proof.
  intros H B w pa pb.
  assert (Hlen : len H + len B <= 1048576) by (vm_compute; discriminate).
  split; [exact Hlen|].
  exact (Send_Recv_roundtrip H B pa pb w [] [] Hlen
           eq_refl eq_refl eq_refl eq_refl eq_refl eq_refl eq_refl).
Defined.

Example Send_Recv_on_the_wire :
  run (Send {| Header := [Byte.x01; Byte.x02]; Body := [Byte.x03] |})
    (mkState (new_conn (wire_conn EndA) 1) (mkWire [] [] false false) [])
  = Some (None,
          mkState (new_conn (wire_conn EndA) 1)
            (mkWire [Byte.x00; Byte.x00; Byte.x00; Byte.x00;
                     Byte.x00; Byte.x00; Byte.x00; Byte.x03;
                     Byte.x01; Byte.x02; Byte.x03] [] false false)
            [CallWrite (BigEndian.PutUint64 3);
             CallWrite [Byte.x01; Byte.x02]; CallWrite [Byte.x03]]).
Proof. reflexivity. Qed.

(** [Recv] at end B when the bytes under way start with the length prefix
    of a frame beyond the bound: the stream is closed at that end. *)
Lemma Recv_wire_too_long (n : Z) (rest : list byte) (pb : conn Wire)
    (w : Wire) (l : list Call) :
  netc pb = wire_conn EndB ->
  rlock pb = false ->
  closedB w = false ->
  a2b w = BigEndian.PutUint64 n ++ rest ->
  1048576 < n < 2 ^ 64 ->
  run Recv (mkState pb w l) =
  Some ((None, Some ErrTooLong),
        mkState pb (shut EndB (set_inbox EndB rest w))
          (l ++ [CallReadFull 8; CallClose])).
Proof.
  intros Hc Hl Hcl Hq Hn.
  set (s := mkState pb w l).
  assert (Hr : conn_ReadFull (netc (pipe s)) 8 (world s) =
               (BigEndian.PutUint64 n, None, set_inbox EndB rest w)).
  { cbn [s pipe world]. rewrite Hc. cbn [wire_conn conn_ReadFull].
    unfold wire_ReadFull. cbn [closed inbox]. rewrite Hcl, Hq. reflexivity. }
  assert (HL : (int64 (BigEndian.Uint64
                  (fill (make 8) (BigEndian.PutUint64 n))) >? 1024 * 1024)
               || (int64 (BigEndian.Uint64
                     (fill (make 8) (BigEndian.PutUint64 n))) <? 0) = true).
  { rewrite fill_full by reflexivity.
    rewrite Uint64_PutUint64, uint64_small by lia.
    apply orb_true_iff. unfold int64.
    destruct (Z.lt_ge_cases n (2 ^ 63)); [left | right];
      Z.div_mod_to_equations; lia. }
  rewrite (Recv_rejects s _ _ Hl Hr HL).
  cbn [s pipe]. rewrite Hc. cbn [wire_conn conn_Close].
  unfold wire_Close.
  replace (closed EndB (set_inbox EndB rest w)) with false
    by (symmetry; exact Hcl).
  reflexivity.
Qed.

(** C10: [Send] compares the length with no bound.  Whatever the lengths
    of header and body, a send on a healthy wire succeeds and puts the
    whole frame on the wire with its three writes; when the combined length
    is over 1,048,576 it is the receive at the other end that fails with
    [ErrTooLong] and closes its stream. *)
Theorem Send_checks_no_bound (msg : Message) (pa pb : conn Wire) (w : Wire)
    (la lb : list Call) :
  netc pa = wire_conn EndA -> wlock pa = false ->
  netc pb = wire_conn EndB -> rlock pb = false ->
  closedA w = false -> closedB w = false -> a2b w = [] ->
  exists (sa : State Wire),
    run (Send msg) (mkState pa w la) = Some (None, sa) /\
    a2b (world sa) = frame msg /\
    calls sa =
      la ++ [CallWrite (BigEndian.PutUint64 (len (Header msg) + len (Body msg)));
             CallWrite (Header msg); CallWrite (Body msg)] /\
    (1048576 < len (Header msg) + len (Body msg) < 2 ^ 64 ->
     exists (sb : State Wire),
       run Recv (mkState pb (world sa) lb) = Some ((None, Some ErrTooLong), sb) /\
       closedB (world sb) = true).
Proof.
  intros Hca Hla Hcb Hlb HclA HclB Hq.
  rewrite (Send_wire msg pa w la Hca Hla HclA).
  eexists. split; [reflexivity|]. cbn [world calls].
  split; [cbn [push a2b]; rewrite Hq; reflexivity|]. split; [reflexivity|].
  intros Hn.
  rewrite (Recv_wire_too_long (len (Header msg) + len (Body msg))
             (Header msg ++ Body msg) pb (push EndA (frame msg) w) lb Hcb Hlb);
    [ eexists; split; reflexivity | exact HclB | | exact Hn ].
  cbn [push a2b]. rewrite Hq. reflexivity.
Qed.

(** A body of 1,048,577 bytes. *)
Lemma Send_checks_no_bound_witness :
  let msg := {| Header := []; Body := repeat Byte.x00 (Z.to_nat 1048577) |} in
  let w := mkWire [] [] false false in
  let pa := new_conn (wire_conn EndA) 1 in
  let pb := new_conn (wire_conn EndB) 2 in
  1048576 < len (Header msg) + len (Body msg) < 2 ^ 64 /\
  exists (sa sb : State Wire),
    run (Send msg) (mkState pa w []) = Some (None, sa) /\
    a2b (world sa) = frame msg /\
    run Recv (mkState pb (world sa) []) = Some ((None, Some ErrTooLong), sb) /\
    closedB (world sb) = true.
Proof.
  intros msg w pa pb.
  assert (Hn : 1048576 < len (Header msg) + len (Body msg) < 2 ^ 64).
  { unfold len, msg. cbn [Header Body length].
    rewrite repeat_length, Z2Nat.id by lia. lia. }
  split; [exact Hn|].
  destruct (Send_checks_no_bound msg pa pb w [] []
              eq_refl eq_refl eq_refl eq_refl eq_refl eq_refl eq_refl)
    as (sa & Hsend & Hq & _ & Hrecv).
  destruct (Hrecv Hn) as (sb & Hrun & Hcl).
  exists sa, sb. repeat split; assumption.
Defined.

(** ** Concurrent senders *)

(** The steps of a sender. *)

Lemma sender_step_lock (msg : Message) (s s' : State Wire)
    (t' : Prog (option error)) :
  thread_step (Send msg) s = Some (t', s') ->
  wlock (pipe s) = false /\
  t' = residual 1 (Send msg) /\
  s' = with_pipe (set_mutex WLock true (pipe s)) s.
Proof.
  unfold Send. cbn [thread_step bind trigger handle held].
  destruct (wlock (pipe s)); [discriminate|].
  intros [= <- <-]. repeat split.
Qed.

Lemma sender_step_write (k : nat) (msg : Message) (s : State Wire) :
  (1 <= k <= 3)%nat ->
  netc (pipe s) = wire_conn EndA ->
  closedA (world s) = false ->
  exists (b : list byte) (new : list Call),
    written (S k) msg = written k msg ++ b /\
    thread_step (residual k (Send msg)) s =
    Some (residual (S k) (Send msg),
          mkState (pipe s) (push EndA b (world s)) (calls s ++ new)).
Proof.
  intros Hk Hc Hcl.
  assert (Hw : forall b, conn_Write (netc (pipe s)) b (world s)
                         = (None, push EndA b (world s))).
  { intros b. rewrite Hc. cbn [wire_conn conn_Write]. unfold wire_Write.
    cbn [closed]. rewrite Hcl. reflexivity. }
  destruct k as [|[|[|[|k]]]]; try lia.
  - eexists _, _. split; [reflexivity|].
    unfold Send, defer, binary_Write_uint64.
    cbn [residual ok bind trigger thread_step handle]. rewrite Hw.
    rewrite PutUint64_uint64. reflexivity.
  - eexists _, _. split; [reflexivity|].
    unfold Send, defer, binary_Write_uint64.
    cbn [residual ok bind trigger thread_step handle]. rewrite Hw.
    reflexivity.
  - eexists _, _. split; [unfold written, frame; rewrite <- app_assoc; reflexivity|].
    unfold Send, defer, binary_Write_uint64.
    cbn [residual ok bind trigger thread_step handle]. rewrite Hw.
    reflexivity.
Qed.

Lemma sender_step_unlock (msg : Message) (s s' : State Wire)
    (t' : Prog (option error)) :
  thread_step (residual 4 (Send msg)) s = Some (t', s') ->
  wlock (pipe s) = true /\
  t' = Ret None /\
  s' = with_pipe (set_mutex WLock false (pipe s)) s.
Proof.
  unfold Send, defer, binary_Write_uint64.
  cbn [residual ok bind trigger thread_step handle held].
  destruct (wlock (pipe s)); [|discriminate].
  intros [= <- <-]. repeat split.
Qed.

Lemma sender_not_finished (k : nat) (msg : Message) :
  (k <= 4)%nat -> ~ finished (residual k (Send msg)).
Proof.
  intros Hk [a Ha].
  destruct k as [|[|[|[|[|k]]]]]; try lia; discriminate Ha.
Qed.

(** Two sends serialize: a sender cannot start while the write mutex is
    held. *)
Lemma sender_waits (msg : Message) {W : Type} (s : State W) :
  wlock (pipe s) = true -> thread_step (Send msg) s = None.
Proof.
  intros Hw. unfold Send. cbn [thread_step bind trigger handle held].
  rewrite Hw. reflexivity.
Qed.

Lemma receiver_waits {W : Type} (s : State W) :
  rlock (pipe s) = true -> thread_step Recv s = None.
Proof.
  intros Hr. unfold Recv. cbn [thread_step bind trigger handle held].
  rewrite Hr. reflexivity.
Qed.

Lemma held_set_mutex' {W : Type} (b : bool) (p : conn W) :
  wlock (set_mutex WLock b p) = b.
Proof. reflexivity. Qed.

(** Replacing one thread of a pool. *)
Lemma pool_replace {A : Type} (l1 l2 rest : list A) (t t' : A) :
  Permutation (l1 ++ t :: l2) (t :: rest) ->
  Permutation (l1 ++ t' :: l2) (t' :: rest).
Proof.
  intros Hp. symmetry in Hp. apply Permutation_cons_app_inv in Hp.
  rewrite <- Permutation_middle. apply perm_skip. symmetry. exact Hp.
Qed.

Lemma senders_inv_init (msgs : list Message) (pa : conn Wire) (w0 : Wire)
    (la : list Call) :
  netc pa = wire_conn EndA -> wlock pa = false -> closedA w0 = false ->
  senders_inv w0 msgs (map Send msgs, mkState pa w0 la).
Proof.
  intros Hc Hl Hcl. exists msgs, [], None.
  cbn [fst snd pipe world holder_thread holder_msg holder_bytes holder_ok
       is_some map concat app].
  rewrite !app_nil_r. repeat split; auto.
Qed.

Lemma senders_inv_step (w0 : Wire) (msgs : list Message)
    (c c' : list (Prog (option error)) * State Wire) :
  senders_inv w0 msgs c -> pool_step c c' -> senders_inv w0 msgs c'.
Proof.
  intros (waiting & done & cur & Hts & Hms & Hok & Hlock & Hc & Hq & Hb & HcA & HcB)
         Hstep.
  destruct Hstep as [l1 l2 t t' s s' Hstep].
  cbn [fst snd] in *.
  assert (Hin : In t (holder_thread cur ++ map Send waiting
                        ++ map (fun _ => Ret None) done)).
  { apply (Permutation_in _ Hts). apply in_elt. }
  apply in_app_or in Hin. destruct Hin as [Hin | Hin].
  - (* the holder of the mutex moves on *)
    destruct cur as [[m k]|]; [|destruct Hin].
    destruct Hin as [<- | []]. cbn [holder_ok] in Hok.
    cbn [holder_thread holder_msg holder_bytes is_some app] in *.
    destruct (Nat.eq_dec k 4) as [-> | Hk].
    + apply sender_step_unlock in Hstep. destruct Hstep as (_ & -> & ->).
      exists waiting, (done ++ [m]), None.
      cbn [fst snd holder_thread holder_msg holder_bytes holder_ok is_some app
           with_pipe pipe world].
      rewrite netc_set_mutex, held_set_mutex' by reflexivity.
      repeat split; auto.
      * apply (pool_replace _ _ _ _ (Ret None)) in Hts.
        rewrite Hts, map_app. cbn [map].
        rewrite app_assoc. apply Permutation_cons_append.
      * rewrite Hms, app_assoc. apply Permutation_cons_append.
      * rewrite Hq, map_app, concat_app. cbn [map concat written].
        rewrite !app_nil_r. reflexivity.
    + destruct (sender_step_write k m s) as (b & new & Hwr & Hst);
        [lia | exact Hc | exact HcA |].
      rewrite Hst in Hstep. injection Hstep as <- <-.
      exists waiting, done, (Some (m, S k)).
      cbn [fst snd holder_thread holder_msg holder_bytes holder_ok is_some app
           pipe world push a2b b2a closedA closedB].
      repeat split; auto; try lia.
      * apply (pool_replace _ _ _ _ (residual (S k) (Send m))) in Hts.
        exact Hts.
      * rewrite Hq, Hwr, <- !app_assoc. reflexivity.
  - apply in_app_or in Hin. destruct Hin as [Hin | Hin].
    + (* a waiting sender takes the mutex *)
      apply in_map_iff in Hin. destruct Hin as (m & <- & Hin).
      apply in_split in Hin. destruct Hin as (wa & wb & ->).
      apply sender_step_lock in Hstep. destruct Hstep as (Hfree & -> & ->).
      rewrite Hfree in Hlock. destruct cur as [[m' k']|]; [discriminate Hlock|].
      cbn [holder_thread holder_msg holder_bytes is_some app] in *.
      exists (wa ++ wb), done, (Some (m, 1%nat)).
      cbn [fst snd holder_thread holder_msg holder_bytes holder_ok is_some app
           with_pipe pipe world written].
      rewrite netc_set_mutex, held_set_mutex' by reflexivity.
      repeat split; auto; try lia.
      * apply (pool_replace _ _ (map Send (wa ++ wb)
                                   ++ map (fun _ => Ret None) done)
                 (Send m) (residual 1 (Send m))).
        rewrite Hts, !map_app. cbn [map]. rewrite <- !app_assoc.
        symmetry. apply Permutation_middle.
      * rewrite Hms. rewrite <- !app_assoc. symmetry.
        apply Permutation_middle.
    + (* a sender that has returned takes no step *)
      apply in_map_iff in Hin. destruct Hin as (m & <- & _).
      discriminate Hstep.
Qed.

Lemma senders_inv_steps (w0 : Wire) (msgs : list Message)
    (c c' : list (Prog (option error)) * State Wire) :
  pool_steps c c' -> senders_inv w0 msgs c -> senders_inv w0 msgs c'.
Proof.
  induction 1 as [c | c1 c2 c3 Hstep _ IH]; intros Hinv.
  - exact Hinv.
  - apply IH. exact (senders_inv_step w0 msgs c1 c2 Hinv Hstep).
Qed.

Lemma map_const_repeat {A B : Type} (b : B) (l : list A) :
  map (fun _ => b) l = repeat b (length l).
Proof. induction l as [|a l IH]; cbn; [reflexivity | rewrite IH; reflexivity]. Qed.

(** When every sender has returned, the bytes under way are the frames of
    all the messages, whole, in the order the senders held the mutex. *)
Lemma senders_inv_finished (w0 : Wire) (msgs : list Message)
    (ts : list (Prog (option error))) (s : State Wire) :
  senders_inv w0 msgs (ts, s) ->
  Forall finished ts ->
  exists order : list Message,
    Permutation order msgs /\
    ts = map (fun _ => Ret None) msgs /\
    a2b (world s) = a2b w0 ++ concat (map frame order) /\
    wlock (pipe s) = false /\
    closedB (world s) = closedB w0.
Proof.
  intros (waiting & done & cur & Hts & Hms & Hok & Hlock & Hc & Hq & Hb & HcA & HcB)
         Hfin.
  cbn [fst snd] in *.
  rewrite Hts in Hfin.
  apply Forall_app in Hfin. destruct Hfin as [Hcur Hfin].
  apply Forall_app in Hfin. destruct Hfin as [Hwait _].
  destruct cur as [[m k]|].
  { cbn [holder_thread holder_ok] in *. inversion Hcur as [|? ? Hf _]; subst.
    exfalso. apply (sender_not_finished k m); [lia | exact Hf]. }
  destruct waiting as [|m waiting].
  2: { cbn [map] in Hwait. inversion Hwait as [|? ? Hf _]; subst.
       exfalso. apply (sender_not_finished 0 m); [lia | exact Hf]. }
  cbn [holder_thread holder_msg holder_bytes is_some map app] in *.
  rewrite app_nil_r in Hq.
  exists done. split; [symmetry; exact Hms|].
  split; [|repeat split; assumption].
  rewrite !map_const_repeat in *.
  rewrite (Permutation_length Hms).
  apply Permutation_repeat. exact Hts.
Qed.

(** *** Every sender returns *)

Lemma senders_inv_at_inv (n : nat) (w0 : Wire) (msgs : list Message)
    (c : list (Prog (option error)) * State Wire) :
  senders_inv_at n w0 msgs c -> senders_inv w0 msgs c.
Proof.
  intros (waiting & done & cur & Hts & Hms & Hok & Hlock & Hc & Hq & Hb & HcA
          & HcB & _).
  exists waiting, done, cur. repeat split; assumption.
Qed.

Lemma senders_inv_at_init (msgs : list Message) (pa : conn Wire) (w0 : Wire)
    (la : list Call) :
  netc pa = wire_conn EndA -> wlock pa = false -> closedA w0 = false ->
  senders_inv_at 0 w0 msgs (map Send msgs, mkState pa w0 la).
Proof.
  intros Hc Hl Hcl. exists msgs, [], None.
  cbn [fst snd pipe world holder_thread holder_msg holder_bytes holder_ok
       holder_steps is_some map concat app length].
  rewrite !app_nil_r. repeat split; auto.
Qed.

(** Each step of the pool is one more operation of one sender. *)
Lemma senders_inv_at_step (n : nat) (w0 : Wire) (msgs : list Message)
    (c c' : list (Prog (option error)) * State Wire) :
  senders_inv_at n w0 msgs c -> pool_step c c' ->
  senders_inv_at (S n) w0 msgs c'.
Proof.
  intros (waiting & done & cur & Hts & Hms & Hok & Hlock & Hc & Hq & Hb & HcA
          & HcB & Hn) Hstep.
  destruct Hstep as [l1 l2 t t' s s' Hstep].
  cbn [fst snd] in *.
  assert (Hin : In t (holder_thread cur ++ map Send waiting
                        ++ map (fun _ => Ret None) done)).
  { apply (Permutation_in _ Hts). apply in_elt. }
  apply in_app_or in Hin. destruct Hin as [Hin | Hin].
  - destruct cur as [[m k]|]; [|destruct Hin].
    destruct Hin as [<- | []]. cbn [holder_ok] in Hok.
    cbn [holder_thread holder_msg holder_bytes holder_steps is_some app] in *.
    destruct (Nat.eq_dec k 4) as [-> | Hk].
    + apply sender_step_unlock in Hstep. destruct Hstep as (_ & -> & ->).
      exists waiting, (done ++ [m]), None.
      cbn [fst snd holder_thread holder_msg holder_bytes holder_ok
           holder_steps is_some app with_pipe pipe world].
      rewrite netc_set_mutex, held_set_mutex' by reflexivity.
      repeat split; auto.
      * apply (pool_replace _ _ _ _ (Ret None)) in Hts.
        rewrite Hts, map_app. cbn [map].
        rewrite app_assoc. apply Permutation_cons_append.
      * rewrite Hms, app_assoc. apply Permutation_cons_append.
      * rewrite Hq, map_app, concat_app. cbn [map concat written].
        rewrite !app_nil_r. reflexivity.
      * rewrite length_app. cbn [length]. lia.
    + destruct (sender_step_write k m s) as (b & new & Hwr & Hst);
        [lia | exact Hc | exact HcA |].
      rewrite Hst in Hstep. injection Hstep as <- <-.
      exists waiting, done, (Some (m, S k)).
      cbn [fst snd holder_thread holder_msg holder_bytes holder_ok
           holder_steps is_some app pipe world push a2b b2a closedA closedB].
      repeat split; auto; try lia.
      * apply (pool_replace _ _ _ _ (residual (S k) (Send m))) in Hts.
        exact Hts.
      * rewrite Hq, Hwr, <- !app_assoc. reflexivity.
  - apply in_app_or in Hin. destruct Hin as [Hin | Hin].
    + apply in_map_iff in Hin. destruct Hin as (m & <- & Hin).
      apply in_split in Hin. destruct Hin as (wa & wb & ->).
      apply sender_step_lock in Hstep. destruct Hstep as (Hfree & -> & ->).
      rewrite Hfree in Hlock. destruct cur as [[m' k']|]; [discriminate Hlock|].
      cbn [holder_thread holder_msg holder_bytes holder_steps is_some app] in *.
      exists (wa ++ wb), done, (Some (m, 1%nat)).
      cbn [fst snd holder_thread holder_msg holder_bytes holder_ok
           holder_steps is_some app with_pipe pipe world written].
      rewrite netc_set_mutex, held_set_mutex' by reflexivity.
      repeat split; auto; try lia.
      * apply (pool_replace _ _ (map Send (wa ++ wb)
                                   ++ map (fun _ => Ret None) done)
                 (Send m) (residual 1 (Send m))).
        rewrite Hts, !map_app. cbn [map]. rewrite <- !app_assoc.
        symmetry. apply Permutation_middle.
      * rewrite Hms. rewrite <- !app_assoc. symmetry.
        apply Permutation_middle.
    + apply in_map_iff in Hin. destruct Hin as (m & <- & _).
      discriminate Hstep.
Qed.

Lemma senders_inv_at_steps (k : nat) (w0 : Wire) (msgs : list Message)
    (c c' : list (Prog (option error)) * State Wire) :
  pool_steps_n k c c' ->
  forall n, senders_inv_at n w0 msgs c -> senders_inv_at (n + k) w0 msgs c'.
Proof.
  induction 1 as [c | k c1 c2 c3 Hstep _ IH]; intros n Hinv.
  - rewrite Nat.add_0_r. exact Hinv.
  - rewrite Nat.add_succ_r. apply (IH (S n)).
    exact (senders_inv_at_step n w0 msgs c1 c2 Hinv Hstep).
Qed.

(** The holder of the write mutex can always take its next step. *)
Lemma sender_unlock_enabled (msg : Message) (s : State Wire) :
  wlock (pipe s) = true ->
  thread_step (residual 4 (Send msg)) s =
  Some (Ret None, with_pipe (set_mutex WLock false (pipe s)) s).
Proof.
  intros Hw. unfold Send, defer, binary_Write_uint64.
  cbn [residual ok bind trigger thread_step handle held].
  rewrite Hw. reflexivity.
Qed.

Lemma sender_lock_enabled (msg : Message) (s : State Wire) :
  wlock (pipe s) = false ->
  thread_step (Send msg) s =
  Some (residual 1 (Send msg), with_pipe (set_mutex WLock true (pipe s)) s).
Proof.
  intros Hw. unfold Send. cbn [residual ok thread_step bind trigger handle held].
  rewrite Hw. reflexivity.
Qed.

Lemma pool_step_of {W A : Type} (ts : list (Prog A)) (t t' : Prog A)
    (s s' : State W) :
  In t ts -> thread_step t s = Some (t', s') ->
  exists c', pool_step (ts, s) c'.
Proof.
  intros Hin Hstep. apply in_split in Hin. destruct Hin as (l1 & l2 & ->).
  eexists. apply pool_step_thread. exact Hstep.
Qed.

(** The step count of a pool of senders never exceeds five per sender. *)
Lemma senders_inv_at_bound (n : nat) (w0 : Wire) (msgs : list Message)
    (c : list (Prog (option error)) * State Wire) :
  senders_inv_at n w0 msgs c -> (n <= 5 * length msgs)%nat.
Proof.
  intros (waiting & done & cur & _ & Hms & Hok & _ & _ & _ & _ & _ & _ & Hn).
  rewrite (Permutation_length Hms), !length_app.
  destruct cur as [[m k]|];
    cbn [holder_ok holder_msg holder_steps length] in *; lia.
Qed.

(** No deadlock: while steps are missing, some sender can take one. *)
Lemma senders_inv_at_progress (n : nat) (w0 : Wire) (msgs : list Message)
    (c : list (Prog (option error)) * State Wire) :
  senders_inv_at n w0 msgs c -> (n < 5 * length msgs)%nat ->
  exists c', pool_step c c'.
Proof.
  intros (waiting & done & cur & Hts & Hms & Hok & Hlock & Hc & _ & _ & HcA
          & _ & Hn) Hlt.
  destruct c as [ts s]. cbn [fst snd] in *.
  symmetry in Hts.
  destruct cur as [[m k]|].
  - cbn [holder_thread holder_ok is_some] in *.
    assert (Hin : In (residual k (Send m)) ts).
    { apply (Permutation_in _ Hts). left. reflexivity. }
    destruct (Nat.eq_dec k 4) as [-> | Hk].
    + exact (pool_step_of ts _ _ s _ Hin (sender_unlock_enabled m s Hlock)).
    + destruct (sender_step_write k m s) as (b & new & _ & Hst);
        [lia | exact Hc | exact HcA |].
      exact (pool_step_of ts _ _ s _ Hin Hst).
  - cbn [holder_thread holder_msg holder_steps is_some app] in *.
    destruct waiting as [|m waiting].
    + exfalso. rewrite (Permutation_length Hms) in Hlt.
      cbn [app] in Hlt. lia.
    + assert (Hin : In (Send m) ts).
      { apply (Permutation_in _ Hts). left. reflexivity. }
      exact (pool_step_of ts _ _ s _ Hin (sender_lock_enabled m s Hlock)).
Qed.

(** After five steps per sender every sender has returned. *)
Lemma senders_inv_at_end (w0 : Wire) (msgs : list Message)
    (c : list (Prog (option error)) * State Wire) :
  senders_inv_at (5 * length msgs) w0 msgs c -> Forall finished (fst c).
Proof.
  intros (waiting & done & cur & Hts & Hms & Hok & _ & _ & _ & _ & _ & _ & Hn).
  assert (Hlen := Permutation_length Hms). rewrite !length_app in Hlen.
  destruct cur as [[m k]|];
    cbn [holder_ok holder_msg holder_steps length] in *; [exfalso; lia|].
  destruct waiting as [|m waiting]; [|cbn [length] in Hlen; exfalso; lia].
  cbn [holder_thread map app] in Hts. symmetry in Hts.
  apply (Permutation_Forall Hts). apply Forall_forall.
  intros t Hin. apply in_map_iff in Hin. destruct Hin as (m & <- & _).
  exists None. reflexivity.
Qed.

(** A pool whose threads have all returned takes no step. *)
Lemma finished_no_step {W A : Type} (ts : list (Prog A)) (s : State W)
    (c' : list (Prog A) * State W) :
  Forall finished ts -> ~ pool_step (ts, s) c'.
Proof.
  intros Hfin Hstep. inversion Hstep as [l1 l2 t t' s0 s' Hth Heq1 Heq2].
  subst. apply Forall_elt in Hfin. destruct Hfin as [a ->].
  discriminate Hth.
Qed.

Lemma set_inbox_same (w : Wire) : set_inbox EndB (a2b w) w = w.
Proof. destruct w; reflexivity. Qed.

Lemma set_inbox_twice (q q' : list byte) (w : Wire) :
  set_inbox EndB q (set_inbox EndB q' w) = set_inbox EndB q w.
Proof. reflexivity. Qed.

(** The receiving end gets the frames one by one. *)
Lemma RecvN_wire (order : list Message) (rest : list byte) (pb : conn Wire) :
  netc pb = wire_conn EndB ->
  rlock pb = false ->
  Forall (fun m => len (Header m) + len (Body m) <= 1048576) order ->
  forall (w : Wire) (l : list Call),
    closedB w = false ->
    a2b w = concat (map frame order) ++ rest ->
    exists new,
      run (RecvN (length order)) (mkState pb w l) =
      Some (map (fun m => (Some (delivered m), None)) order,
            mkState pb (set_inbox EndB rest w) (l ++ new)).
Proof.
  intros Hc Hl Hbound.
  induction Hbound as [|m order Hm _ IH]; intros w l Hcl Hq.
  - exists []. cbn [length RecvN run map concat app] in *.
    rewrite <- Hq, set_inbox_same, app_nil_r. reflexivity.
  - cbn [map concat] in Hq. rewrite <- app_assoc in Hq.
    destruct (Recv_wire m _ pb w l Hc Hl Hcl Hq Hm) as [new1 Hrecv].
    destruct (IH (set_inbox EndB (concat (map frame order) ++ rest) w)
                (l ++ new1) Hcl eq_refl) as [new2 Hrest].
    exists (new1 ++ new2).
    cbn [length RecvN map]. rewrite run_bind, Hrecv, run_bind, Hrest.
    cbn [run]. rewrite set_inbox_twice, app_assoc. reflexivity.
Qed.

(** The two directions do not wait for each other. *)
Lemma Send_returns {W : Type} (msg : Message) (s : State W) :
  wlock (pipe s) = false ->
  exists r s', run (Send msg) s = Some (r, s') /\ pipe s' = pipe s.
Proof.
  intros Hw. rewrite run_Send by exact Hw. unfold Send_writes.
  destruct (conn_Write _ _ _) as [[e1|] w1]; [eexists _, _; split; reflexivity|].
  destruct (conn_Write _ _ _) as [[e2|] w2]; [eexists _, _; split; reflexivity|].
  destruct (conn_Write _ _ _) as [e3 w3]. eexists _, _; split; reflexivity.
Qed.

Lemma Recv_returns {W : Type} (s : State W) :
  rlock (pipe s) = false ->
  exists r s', run Recv s = Some (r, s') /\ pipe s' = pipe s.
Proof.
  intros Hl.
  destruct (conn_ReadFull (netc (pipe s)) 8 (world s)) as [[data [e|]] w1] eqn:Hr.
  - rewrite (Recv_prefix_error s e data w1 Hl Hr). eexists _, _; split; reflexivity.
  - destruct ((int64 (BigEndian.Uint64 (fill (make 8) data)) >? 1024 * 1024)
              || (int64 (BigEndian.Uint64 (fill (make 8) data)) <? 0)) eqn:HL.
    + rewrite (Recv_rejects s data w1 Hl Hr HL). eexists _, _; split; reflexivity.
    + pose proof (Recv_accepts s data w1 Hl Hr HL) as Hrun. cbv zeta in Hrun.
      rewrite Hrun. clear Hrun Hr.
      destruct (_ =? _)%nat; [eexists _, _; split; reflexivity|].
      destruct (conn_ReadFull _ _ _) as [[body [e|]] w2];
      eexists _, _; split; reflexivity.
Qed.

(** A caller can start exactly when the mutex of its own direction is
    free. *)
Lemma sender_starts {W : Type} (msg : Message) (s : State W) :
  thread_step (Send msg) s = None <-> wlock (pipe s) = true.
Proof.
  unfold Send. cbn [thread_step bind trigger handle held].
  destruct (wlock (pipe s)); split; intros H; try reflexivity; discriminate H.
Qed.

Lemma receiver_starts {W : Type} (s : State W) :
  thread_step Recv s = None <-> rlock (pipe s) = true.
Proof.
  unfold Recv. cbn [thread_step bind trigger handle held].
  destruct (rlock (pipe s)); split; intros H; try reflexivity; discriminate H.
Qed.

(** C9: callers that send concurrently on one pipe serialize on the write
    mutex.  In every interleaving the senders take five steps each and no
    more (the lock, the three writes, the unlock); while steps are missing
    some sender can take one, so that no sender waits for the mutex for
    good; the senders have all returned exactly when the last step is
    taken.  The receiving end then finds one whole frame per message, one
    after the other, in the order in which the senders held the mutex: no
    byte of one message lies inside the frame of another.  A sender waits
    at its start exactly while the write mutex is held, a receiver exactly
    while the read mutex is held, and neither direction waits for the
    mutex of the other: with its own mutex free and a stream that answers,
    a send or a receive runs to its end whoever holds the other mutex,
    which it leaves as it was. *)
Theorem concurrent_sends_serialize (msgs : list Message) (pa pb : conn Wire)
    (w : Wire) (la lb : list Call) (n : nat)
    (ts : list (Prog (option error))) (sa : State Wire) :
  netc pa = wire_conn EndA -> wlock pa = false ->
  netc pb = wire_conn EndB -> rlock pb = false ->
  closedA w = false -> closedB w = false -> a2b w = [] ->
  Forall (fun m => len (Header m) + len (Body m) <= 1048576) msgs ->
  pool_steps_n n (map Send msgs, mkState pa w la) (ts, sa) ->
  (n <= 5 * length msgs)%nat /\
  ((n < 5 * length msgs)%nat -> exists c', pool_step (ts, sa) c') /\
  (Forall finished ts <-> n = (5 * length msgs)%nat) /\
  (Forall finished ts ->
   exists order : list Message,
     Permutation order msgs /\
     ts = map (fun _ => Ret None) msgs /\
     a2b (world sa) = concat (map frame order) /\
     exists sb : State Wire,
       run (RecvN (length msgs)) (mkState pb (world sa) lb) =
       Some (map (fun m => (Some (delivered m), None)) order, sb)) /\
  (forall (m : Message) (s : State Wire),
     thread_step (Send m) s = None <-> wlock (pipe s) = true) /\
  (forall s : State Wire,
     thread_step Recv s = None <-> rlock (pipe s) = true) /\
  (forall (m : Message) (s : State Wire),
     wlock (pipe s) = false ->
     exists r s', run (Send m) s = Some (r, s') /\
                  rlock (pipe s') = rlock (pipe s)) /\
  (forall s : State Wire,
     rlock (pipe s) = false ->
     exists r s', run Recv s = Some (r, s') /\
                  wlock (pipe s') = wlock (pipe s)).
Proof.
  intros Hca Hla Hcb Hlb HclA HclB Hq Hbound Hsteps.
  pose proof (senders_inv_at_steps n w msgs _ _ Hsteps 0%nat
                (senders_inv_at_init msgs pa w la Hca Hla HclA)) as Hat.
  cbn [Nat.add] in Hat.
  pose proof (senders_inv_at_bound n w msgs _ Hat) as Hle.
  pose proof (senders_inv_at_progress n w msgs _ Hat) as Hprog.
  split; [exact Hle|]. split; [exact Hprog|].
  split; [|split; [|split; [|split; [|split]]]].
  - split.
    + intros Hfin. destruct (Nat.eq_dec n (5 * length msgs)) as [E|NE];
        [exact E|].
      destruct Hprog as [c' Hstep]; [lia|].
      exfalso. exact (finished_no_step ts sa c' Hfin Hstep).
    + intros E. rewrite E in Hat.
      exact (senders_inv_at_end w msgs _ Hat).
  - intros Hfin.
    pose proof (senders_inv_at_inv n w msgs _ Hat) as Hinv.
    destruct (senders_inv_finished w msgs ts sa Hinv Hfin)
      as (order & Hperm & Hts & Hwire & _ & HcB).
    rewrite Hq in Hwire. cbn [app] in Hwire.
    exists order. split; [exact Hperm|]. split; [exact Hts|].
    split; [exact Hwire|].
    assert (Hbound' : Forall (fun m => len (Header m) + len (Body m) <= 1048576)
                        order).
    { symmetry in Hperm. exact (Permutation_Forall Hperm Hbound). }
    destruct (RecvN_wire order [] pb Hcb Hlb Hbound' (world sa) lb)
      as [new Hrun].
    + rewrite HcB. exact HclB.
    + rewrite Hwire, app_nil_r. reflexivity.
    + rewrite <- (Permutation_length Hperm). eexists. exact Hrun.
  - intros m s. apply sender_starts.
  - intros s. apply receiver_starts.
  - intros m s Hw. destruct (Send_returns m s Hw) as (r & s' & Hrun & Hp).
    exists r, s'. split; [exact Hrun | rewrite Hp; reflexivity].
  - intros s Hl. destruct (Recv_returns s Hl) as (r & s' & Hrun & Hp).
    exists r, s'. split; [exact Hrun | rewrite Hp; reflexivity].
Qed.

(** Two senders; the second one gets the mutex first, and the first one
    has to wait until the second has returned.  After the ten steps both
    have returned. *)
Lemma concurrent_sends_serialize_witness :
  let m1 := {| Header := [Byte.x01]; Body := [Byte.x02] |} in
  let m2 := {| Header := []; Body := [Byte.x03; Byte.x04] |} in
  let w := mkWire [] [] false false in
  let pa := new_conn (wire_conn EndA) 1 in
  let pb := new_conn (wire_conn EndB) 2 in
  Forall (fun m => len (Header m) + len (Body m) <= 1048576) [m1; m2] /\
  exists (ts : list (Prog (option error))) (sa : State Wire),
    pool_steps_n 10 (map Send [m1; m2], mkState pa w []) (ts, sa) /\
    Forall finished ts /\
    a2b (world sa) = frame m2 ++ frame m1 /\
    exists sb : State Wire,
      run (RecvN 2) (mkState pb (world sa) []) =
      Some ([(Some (delivered m2), None); (Some (delivered m1), None)], sb).
Proof.
  intros m1 m2 w pa pb.
  assert (Hbound : Forall (fun m => len (Header m) + len (Body m) <= 1048576)
                     [m1; m2]).
  { repeat constructor; vm_compute; discriminate. }
  split; [exact Hbound|].
  assert (Hsteps : exists ts sa,
             pool_steps_n 10 (map Send [m1; m2], mkState pa w []) (ts, sa) /\
             a2b (world sa) = frame m2 ++ frame m1).
  { eexists _, _. split.
    - do 5 (eapply pool_steps_n_step;
            [apply (pool_step_thread [Send m1] []); reflexivity|]).
      do 5 (eapply pool_steps_n_step;
            [apply (pool_step_thread [] [Ret None]); reflexivity|]).
      apply pool_steps_n_refl.
    - reflexivity. }
  destruct Hsteps as (ts & sa & Hsteps & Hwire).
  destruct (concurrent_sends_serialize [m1; m2] pa pb w [] [] 10 ts sa
              eq_refl eq_refl eq_refl eq_refl eq_refl eq_refl eq_refl
              Hbound Hsteps)
    as (_ & _ & Hiff & Hres & _).
  assert (Hfin : Forall finished ts) by (apply Hiff; reflexivity).
  exists ts, sa. split; [exact Hsteps|]. split; [exact Hfin|].
  split; [exact Hwire|].
  destruct (Hres Hfin) as (order & Hperm & _ & Hq & sb & Hrun).
  exists sb. change (length [m1; m2]) with 2%nat in Hrun.
  rewrite Hrun. f_equal. f_equal.
  assert (Horder : order = [m2; m1]); [|rewrite Horder; reflexivity].
  rewrite Hwire in Hq.
  symmetry in Hperm. apply Permutation_length_2_inv in Hperm.
  destruct Hperm as [-> | ->]; [|reflexivity].
  exfalso. vm_compute in Hq. discriminate Hq.
Defined.

(** * Further properties *)

(** ** Recv, path by path *)

(** X1: when the read of the length prefix fails, [Recv] returns the error
    of the read as it is and no message; it makes no other call on the
    stream, it does not close it in particular, and the pipe is as before,
    the read mutex free again. *)
Theorem Recv_prefix_error_not_closed {W : Type} (s : State W) (e : error)
    (data : list byte) (w1 : W) :
  rlock (pipe s) = false ->
  conn_ReadFull (netc (pipe s)) 8 (world s) = (data, Some e, w1) ->
  exists s',
    run Recv s = Some ((None, Some e), s') /\
    pipe s' = pipe s /\
    world s' = w1 /\
    calls s' = calls s ++ [CallReadFull 8].
Proof.
  intros Hl Hr. eexists. split.
  - apply (Recv_prefix_error s e data w1 Hl Hr).
  - cbn [pipe world calls]. repeat split.
Qed.

(** A stream at its end. *)
Lemma Recv_prefix_error_not_closed_witness :
  let s := mkState (new_conn script_conn 1) (mkScript [] [] 0) [] in
  rlock (pipe s) = false /\
  conn_ReadFull (netc (pipe s)) 8 (world s) = ([], Some EOF, mkScript [] [] 0) /\
  exists s',
    run Recv s = Some ((None, Some EOF), s') /\
    closes (world s') = 0%nat.
Proof.
  intros s. split; [reflexivity|]. split; [reflexivity|].
  destruct (Recv_prefix_error_not_closed s EOF [] (mkScript [] [] 0)
              eq_refl eq_refl) as (s' & Hrun & _ & Hw & _).
  exists s'. split; [exact Hrun|]. rewrite Hw. reflexivity.
Defined.

(** X2: a frame that declares the length 0 gives a message with an empty
    header and an empty body; [Recv] makes no call on the stream after the
    read of the prefix, so it succeeds even when nothing follows the
    prefix. *)
Theorem Recv_empty_frame {W : Type} (s : State W) (data : list byte) (w1 : W) :
  rlock (pipe s) = false ->
  conn_ReadFull (netc (pipe s)) 8 (world s) = (data, None, w1) ->
  int64 (BigEndian.Uint64 (fill (make 8) data)) = 0 ->
  run Recv s =
  Some ((Some {| Header := []; Body := [] |}, None),
        mkState (pipe s) w1 (calls s ++ [CallReadFull 8])).
Proof.
  intros Hl Hr H0.
  assert (HL : (int64 (BigEndian.Uint64 (fill (make 8) data)) >? 1024 * 1024)
               || (int64 (BigEndian.Uint64 (fill (make 8) data)) <? 0) = false).
  { rewrite H0. reflexivity. }
  pose proof (Recv_accepts s data w1 Hl Hr HL) as Hrun.
  cbv zeta in Hrun. rewrite H0 in Hrun. exact Hrun.
Qed.

(** Eight zero bytes and then the end of the stream. *)
Lemma Recv_empty_frame_witness :
  let w := mkWire (BigEndian.PutUint64 0) [] false false in
  let s := mkState (new_conn (wire_conn EndB) 2) w [] in
  rlock (pipe s) = false /\
  conn_ReadFull (netc (pipe s)) 8 (world s)
    = (BigEndian.PutUint64 0, None, mkWire [] [] false false) /\
  int64 (BigEndian.Uint64 (fill (make 8) (BigEndian.PutUint64 0))) = 0 /\
  run Recv s =
  Some ((Some {| Header := []; Body := [] |}, None),
        mkState (new_conn (wire_conn EndB) 2) (mkWire [] [] false false)
          [CallReadFull 8]).
Proof.
  intros w s. split; [reflexivity|]. split; [reflexivity|].
  split; [reflexivity|].
  exact (Recv_empty_frame s (BigEndian.PutUint64 0) (mkWire [] [] false false)
           eq_refl eq_refl eq_refl).
Defined.

(** A caller that finds the mutex of its direction held does not get
    through. *)
Lemma run_Send_blocked {W : Type} (msg : Message) (s : State W) :
  wlock (pipe s) = true -> run (Send msg) s = None.
Proof.
  intros Hw. unfold Send. rewrite run_bind, run_trigger.
  cbn [handle held]. rewrite Hw. reflexivity.
Qed.

Lemma run_Recv_blocked {W : Type} (s : State W) :
  rlock (pipe s) = true -> run Recv s = None.
Proof.
  intros Hr. unfold Recv. rewrite run_bind, run_trigger.
  cbn [handle held]. rewrite Hr. reflexivity.
Qed.

(** X3: whatever [Recv] returns, on any stream, is either a message and no
    error or an error and no message, never both and never neither.  A
    message has an empty header and a body of at most 1,048,576 bytes.
    A call that has returned found the read mutex free, has left the pipe
    as it was (the read mutex free again), has made at most two calls on
    the stream and has not written to it. *)
Theorem Recv_message_or_error {W : Type} (s s' : State W)
    (r : option Message * option error) :
  run Recv s = Some (r, s') ->
  rlock (pipe s) = false /\
  pipe s' = pipe s /\
  (exists new : list Call,
     calls s' = calls s ++ new /\ (length new <= 2)%nat /\
     forall b, ~ In (CallWrite b) new) /\
  ((exists body, r = (Some {| Header := []; Body := body |}, None)
                 /\ len body <= 1048576)
   \/ (exists e, r = (None, Some e))).
Proof.
  intros Hrun.
  assert (Hl : rlock (pipe s) = false).
  { destruct (rlock (pipe s)) eqn:E; [|reflexivity].
    rewrite (run_Recv_blocked s E) in Hrun. discriminate Hrun. }
  split; [exact Hl|].
  destruct (conn_ReadFull (netc (pipe s)) 8 (world s)) as [[data [e|]] w1] eqn:Hr.
  - rewrite (Recv_prefix_error s e data w1 Hl Hr) in Hrun.
    injection Hrun as <- <-. split; [reflexivity|]. split.
    + exists [CallReadFull 8]. split; [reflexivity|]. split; [cbn; lia|].
      apply no_write_in. reflexivity.
    + right. eexists. reflexivity.
  - set (L := int64 (BigEndian.Uint64 (fill (make 8) data))).
    destruct ((L >? 1024 * 1024) || (L <? 0)) eqn:HL.
    + rewrite (Recv_rejects s data w1 Hl Hr HL) in Hrun.
      injection Hrun as <- <-. split; [reflexivity|]. split.
      * exists [CallReadFull 8; CallClose]. split; [reflexivity|]. split; [cbn; lia|].
        apply no_write_in. reflexivity.
      * right. eexists. reflexivity.
    + assert (Hacc : 0 <= L <= 1048576).
      { apply orb_false_iff in HL. destruct HL as [H1 H2]. lia. }
      pose proof (Recv_accepts s data w1 Hl Hr HL) as Hacc'.
      cbv zeta in Hacc'. fold L in Hacc'. rewrite Hacc' in Hrun. clear Hacc'.
      destruct (Z.to_nat L =? 0)%nat.
      * injection Hrun as <- <-. split; [reflexivity|]. split.
        -- exists [CallReadFull 8]. split; [reflexivity|]. split; [cbn; lia|].
           apply no_write_in. reflexivity.
        -- left. eexists. split; [reflexivity|].
           unfold len. rewrite make_length. lia.
      * clear Hr.
        destruct (conn_ReadFull (netc (pipe s)) (Z.to_nat L) w1)
          as [[body [e|]] w2];
          injection Hrun as <- <-; (split; [reflexivity|]); split;
          try (exists [CallReadFull 8; CallReadFull (Z.to_nat L)];
               split; [reflexivity|]; split;
               [cbn; lia | apply no_write_in; reflexivity]).
        -- right. eexists. reflexivity.
        -- left. eexists. split; [reflexivity|].
           unfold len. rewrite fill_length, make_length. lia.
Qed.

(** A frame of two bytes is returned as a message; the stream has been
    read twice and not written to. *)
Lemma Recv_message_or_error_witness :
  let w := mkWire (frame {| Header := [Byte.x01]; Body := [Byte.x02] |})
             [] false false in
  let s := mkState (new_conn (wire_conn EndB) 2) w [] in
  let s' := mkState (new_conn (wire_conn EndB) 2) (mkWire [] [] false false)
              [CallReadFull 8; CallReadFull 2] in
  let r := (Some {| Header := []; Body := [Byte.x01; Byte.x02] |}, None) in
  run Recv s = Some (r, s') /\
  pipe s' = pipe s /\
  (exists new : list Call,
     calls s' = calls s ++ new /\ (length new <= 2)%nat /\
     forall b, ~ In (CallWrite b) new).
Proof.
  intros w s s' r.
  assert (Hrun : run Recv s = Some (r, s')) by reflexivity.
  split; [exact Hrun|].
  destruct (Recv_message_or_error s s' r Hrun) as (_ & Hp & Hnew & _).
  split; [exact Hp | exact Hnew].
Defined.

(** ** The handshake, as a whole *)

Ltac no_close :=
  let H := fresh "H" in
  intros H; repeat (destruct H as [H | H]; [discriminate H|]); destruct H.

Ltac closed_last s :=
  cbn [fst pipe]; split; [|split; [|split]];
  [ split; [intros _; split; [discriminate | reflexivity]
           | intros _; right; right; left; reflexivity]
  | intros _;
    exists [CallWrite (handshake_header (lproto (pipe s))); CallReadFull 8];
    split; [reflexivity | no_close]
  | reflexivity
  | discriminate ].

(** X4: whenever the handshake returns, on any stream, it has called
    [Close] on the stream exactly when it failed after its own header had
    been written, and then once, as its last call; it has made at most
    three calls on the stream.  When it failed the
    pipe is left as it was, not open; when it succeeded only the remote
    protocol number and the open flag have changed, and the pipe is
    open. *)
Theorem handshake_closes_iff_failed_after_write {W : Type} (s s' : State W)
    (r : option error) :
  run handshake s = Some (r, s') ->
  exists new : list Call,
    calls s' = calls s ++ new /\
    (length new <= 3)%nat /\
    (In CallClose new <->
     r <> None /\
     fst (conn_Write (netc (pipe s)) (handshake_header (lproto (pipe s)))
            (world s)) = None) /\
    (In CallClose new ->
     exists before, new = before ++ [CallClose] /\ ~ In CallClose before) /\
    (r <> None -> pipe s' = pipe s) /\
    (r = None ->
     exists rp, pipe s' = set_open true (set_rproto rp (pipe s))).
Proof.
  intros Hrun.
  destruct (conn_Write (netc (pipe s)) (handshake_header (lproto (pipe s)))
              (world s)) as [[e|] w1] eqn:Hw.
  - rewrite (handshake_write_error s e w1 Hw) in Hrun.
    injection Hrun as <- <-.
    exists [CallWrite (handshake_header (lproto (pipe s)))].
    split; [reflexivity|]. split; [cbn; lia|].
    cbn [fst pipe]. split; [|split; [|split]].
    + split; [no_close | intros [_ Hc]; discriminate Hc].
    + no_close.
    + reflexivity.
    + discriminate.
  - destruct (conn_ReadFull (netc (pipe s)) 8 w1) as [[data [e|]] w2] eqn:Hr.
    + rewrite (handshake_read_error s e w1 w2 data Hw Hr) in Hrun.
      injection Hrun as <- <-.
      exists [CallWrite (handshake_header (lproto (pipe s)));
              CallReadFull 8; CallClose].
      split; [reflexivity|]. split; [cbn; lia|]. closed_last s.
    + pose proof (handshake_received s w1 w2 data Hw Hr) as Hrec.
      cbv zeta in Hrec. rewrite Hrec in Hrun. clear Hrec.
      destruct (bad_header _); [| destruct (byte_neq _ _)];
        injection Hrun as <- <-.
      * exists [CallWrite (handshake_header (lproto (pipe s)));
                CallReadFull 8; CallClose].
        split; [reflexivity|]. split; [cbn; lia|]. closed_last s.
      * exists [CallWrite (handshake_header (lproto (pipe s)));
                CallReadFull 8; CallClose].
        split; [reflexivity|]. split; [cbn; lia|]. closed_last s.
      * exists [CallWrite (handshake_header (lproto (pipe s)));
                CallReadFull 8].
        split; [reflexivity|]. split; [cbn; lia|].
        cbn [fst pipe]. split; [|split; [|split]].
        -- split; [no_close | intros [Hc _]; exfalso; apply Hc; reflexivity].
        -- no_close.
        -- intros Hc. exfalso. apply Hc. reflexivity.
        -- intros _. eexists. reflexivity.
Qed.

(** The peer has sent eight bytes that are no header: the handshake
    fails after its own header has been written, and closes the stream
    as its last call. *)
Lemma handshake_closes_iff_failed_after_write_witness :
  let junk := [Byte.x01; Byte.x02; Byte.x03; Byte.x04;
               Byte.x05; Byte.x06; Byte.x07; Byte.x08] in
  let s := mkState (new_conn (wire_conn EndA) 7)
             (mkWire [] junk false false) [] in
  let s' := mkState (new_conn (wire_conn EndA) 7)
              (mkWire (handshake_header 7) [] true false)
              [CallWrite (handshake_header 7); CallReadFull 8; CallClose] in
  run handshake s = Some (Some ErrBadHeader, s') /\
  exists new : list Call,
    calls s' = calls s ++ new /\
    In CallClose new /\
    exists before, new = before ++ [CallClose] /\ ~ In CallClose before.
Proof.
  intros junk s s'.
  assert (Hrun : run handshake s = Some (Some ErrBadHeader, s'))
    by reflexivity.
  split; [exact Hrun|].
  destruct (handshake_closes_iff_failed_after_write s s' _ Hrun)
    as (new & Hcalls & _ & Hiff & Hlast & _).
  exists new. split; [exact Hcalls|].
  assert (Hin : In CallClose new).
  { apply Hiff. split; [discriminate | reflexivity]. }
  split; [exact Hin | exact (Hlast Hin)].
Defined.

(** ** What Send and Recv do not look at *)

(** X5: [Send] and [Recv] consult neither the open flag nor the protocol
    numbers of the pipe.  On two pipes over the same stream whose mutexes
    are in the same state, they return the same result, leave the stream
    in the same state and make the same calls, whatever the other fields
    are: a pipe that is marked closed still sends and receives if the
    stream lets it. *)
Theorem Send_Recv_ignore_open_flag {W : Type} (p q : conn W) (w : W)
    (l : list Call) (msg : Message) :
  netc p = netc q -> rlock p = rlock q -> wlock p = wlock q ->
  seen (run (Send msg) (mkState p w l)) = seen (run (Send msg) (mkState q w l)) /\
  seen (run Recv (mkState p w l)) = seen (run Recv (mkState q w l)).
Proof.
  intros Hc Hr Hw. split.
  - destruct (wlock q) eqn:Hq.
    + rewrite !run_Send_blocked by assumption. reflexivity.
    + rewrite !run_Send by assumption. unfold Send_writes.
      cbn [pipe world calls]. rewrite Hc.
      destruct (conn_Write _ _ _) as [[e1|] w1]; [reflexivity|].
      destruct (conn_Write _ _ _) as [[e2|] w2]; [reflexivity|].
      destruct (conn_Write _ _ _) as [e3 w3]. reflexivity.
  - destruct (rlock q) eqn:Hq.
    + rewrite !run_Recv_blocked by assumption. reflexivity.
    + set (sp := mkState p w l). set (sq := mkState q w l).
      assert (Hlp : rlock (pipe sp) = false) by (cbn; congruence).
      assert (Hlq : rlock (pipe sq) = false) by exact Hq.
      destruct (conn_ReadFull (netc q) 8 w) as [[data [e|]] w1] eqn:Hrd.
      * rewrite (Recv_prefix_error sp e data w1 Hlp)
          by (cbn [sp pipe world]; rewrite Hc; exact Hrd).
        rewrite (Recv_prefix_error sq e data w1 Hlq Hrd). reflexivity.
      * assert (Hrp : conn_ReadFull (netc (pipe sp)) 8 (world sp)
                      = (data, None, w1))
          by (cbn [sp pipe world]; rewrite Hc; exact Hrd).
        destruct ((int64 (BigEndian.Uint64 (fill (make 8) data)) >? 1024 * 1024)
                  || (int64 (BigEndian.Uint64 (fill (make 8) data)) <? 0)) eqn:HL.
        -- rewrite (Recv_rejects sp data w1 Hlp Hrp HL).
           rewrite (Recv_rejects sq data w1 Hlq Hrd HL).
           cbn [sp sq pipe seen world calls]. rewrite Hc. reflexivity.
        -- pose proof (Recv_accepts sp data w1 Hlp Hrp HL) as Hp.
           pose proof (Recv_accepts sq data w1 Hlq Hrd HL) as Hq'.
           cbv zeta in Hp, Hq'. rewrite Hp, Hq'. clear Hp Hq' Hrp Hrd.
           cbn [sp sq pipe world calls]. rewrite Hc.
           destruct (_ =? _)%nat; [reflexivity|].
           destruct (conn_ReadFull _ _ _) as [[body [e|]] w2]; reflexivity.
Qed.

(** A pipe that was never opened and one marked open with another remote
    protocol. *)
Lemma Send_Recv_ignore_open_flag_witness :
  let c := wire_conn EndA in
  let p := new_conn c 1 in
  let q := set_open true (set_rproto 7 (new_conn c 1)) in
  let w := mkWire [] (frame {| Header := []; Body := [Byte.x09] |}) false false in
  let msg := {| Header := [Byte.x01]; Body := [] |} in
  netc p = netc q /\ rlock p = rlock q /\ wlock p = wlock q /\
  open p <> open q /\
  seen (run (Send msg) (mkState p w [])) = seen (run (Send msg) (mkState q w [])) /\
  seen (run Recv (mkState p w [])) = seen (run Recv (mkState q w [])).
Proof.
  intros c p q w msg.
  split; [reflexivity|]. split; [reflexivity|]. split; [reflexivity|].
  split; [discriminate|].
  exact (Send_Recv_ignore_open_flag p q w [] msg eq_refl eq_refl eq_refl).
Defined.

(** ** The handshake header on the wire *)

(** X6: the eight-byte layout of [connHeader] loses nothing: a header
    whose two 16-bit fields are in range is read back from its bytes as it
    was written. *)
Theorem connHeader_decode_encode (h : connHeader.t) :
  0 <= connHeader.Proto h < 65536 ->
  0 <= connHeader.Rsvd h < 65536 ->
  length (connHeader.encode h) = 8%nat /\
  connHeader.decode (connHeader.encode h) = h.
Proof.
  intros Hp Hr. split; [reflexivity|].
  destruct h as [z s p v proto rsvd]. cbn [connHeader.Proto connHeader.Rsvd] in *.
  unfold connHeader.decode, connHeader.encode.
  cbn [connHeader.Zero connHeader.S connHeader.P connHeader.Version
       connHeader.Proto connHeader.Rsvd app nth].
  change (BigEndian.Uint16 (skipn 4 _))
    with (BigEndian.Uint16 (BigEndian.PutUint16 proto)).
  change (BigEndian.Uint16 (skipn 6 _))
    with (BigEndian.Uint16 (BigEndian.PutUint16 rsvd)).
  rewrite !Uint16_PutUint16. unfold uint16.
  rewrite !Z.mod_small by lia. reflexivity.
Qed.

Lemma connHeader_decode_encode_witness :
  let h := connHeader.mk Byte.x00 "S"%byte "P"%byte Byte.x00 4660 0 in
  0 <= connHeader.Proto h < 65536 /\
  0 <= connHeader.Rsvd h < 65536 /\
  length (connHeader.encode h) = 8%nat /\
  connHeader.decode (connHeader.encode h) = h.
Proof.
  intros h.
  assert (Hp : 0 <= connHeader.Proto h < 65536) by (cbn; lia).
  assert (Hr : 0 <= connHeader.Rsvd h < 65536) by (cbn; lia).
  split; [exact Hp|]. split; [exact Hr|].
  exact (connHeader_decode_encode h Hp Hr).
Defined.

Lemma decode_handshake_header (rp : Z) :
  0 <= rp < 65536 ->
  bad_header (connHeader.decode (handshake_header rp)) = false /\
  byte_neq (connHeader.Version (connHeader.decode (handshake_header rp)))
    Byte.x00 = false /\
  connHeader.Proto (connHeader.decode (handshake_header rp)) = rp.
Proof.
  intros Hrp.
  assert (HP : connHeader.Proto (connHeader.decode (handshake_header rp)) = rp).
  { change (connHeader.Proto (connHeader.decode (handshake_header rp)))
      with (BigEndian.Uint16 (BigEndian.PutUint16 rp)).
    rewrite Uint16_PutUint16. unfold uint16. apply Z.mod_small. lia. }
  split; [reflexivity|]. split; [reflexivity | exact HP].
Qed.

(** X7: a pipe accepts the header that a pipe sends.  When the bytes
    waiting at its end start with the handshake header of a peer with
    protocol number [rp], [NewConnPipe] returns a pipe that is open, has
    [rp] as remote and its argument as local protocol; it has put its own
    header on the wire, has not closed the stream, and has left what
    follows the peer's header unread. *)
Theorem NewConnPipe_accepts_peer_header (lp rp : Z) (rest : list byte)
    (w : Wire) :
  0 <= rp < 65536 ->
  closedB w = false ->
  a2b w = handshake_header rp ++ rest ->
  exists (p : conn Wire) (s' : State Wire),
    NewConnPipe (wire_conn EndB) lp w = Some ((Some p, None), s') /\
    p = pipe s' /\
    rproto p = rp /\ lproto p = lp /\ open p = true /\
    rlock p = false /\ wlock p = false /\
    world s' = push EndB (handshake_header lp) (set_inbox EndB rest w) /\
    calls s' = [CallWrite (handshake_header lp); CallReadFull 8].
Proof.
  intros Hrp Hcl Hq.
  destruct (decode_handshake_header rp Hrp) as (Hbad & Hver & Hproto).
  set (c := wire_conn EndB).
  set (s := mkState (new_conn c lp) w []).
  assert (Hw : conn_Write (netc (pipe s)) (handshake_header (lproto (pipe s)))
                 (world s) = (None, push EndB (handshake_header lp) w)).
  { cbn [s pipe world new_conn netc lproto c wire_conn conn_Write].
    unfold wire_Write. cbn [closed]. rewrite Hcl. reflexivity. }
  assert (Hr : conn_ReadFull (netc (pipe s)) 8 (push EndB (handshake_header lp) w)
               = (handshake_header rp, None,
                  set_inbox EndB rest (push EndB (handshake_header lp) w))).
  { cbn [s pipe new_conn netc c wire_conn conn_ReadFull].
    unfold wire_ReadFull. cbn [closed push inbox closedB a2b].
    rewrite Hcl, Hq. reflexivity. }
  pose proof (handshake_received s _ _ _ Hw Hr) as Hrun.
  cbv zeta in Hrun.
  rewrite (fill_full (make 8) (handshake_header rp)) in Hrun by reflexivity.
  rewrite Hbad, Hver, Hproto in Hrun.
  unfold NewConnPipe. fold (new_conn c lp). fold s. rewrite Hrun.
  eexists _, _. split; [reflexivity|]. cbn [pipe world calls].
  repeat split.
Qed.

Lemma NewConnPipe_accepts_peer_header_witness :
  let w := mkWire (handshake_header 1 ++ [Byte.xff]) [] false false in
  0 <= 1 < 65536 /\ closedB w = false /\
  a2b w = handshake_header 1 ++ [Byte.xff] /\
  exists (p : conn Wire) (s' : State Wire),
    NewConnPipe (wire_conn EndB) 2 w = Some ((Some p, None), s') /\
    rproto p = 1 /\ lproto p = 2 /\ open p = true /\
    world s' = mkWire [Byte.xff] (handshake_header 2) false false.
Proof.
  intros w.
  assert (Hrp : 0 <= 1 < 65536) by lia.
  split; [exact Hrp|]. split; [reflexivity|]. split; [reflexivity|].
  destruct (NewConnPipe_accepts_peer_header 2 1 [Byte.xff] w Hrp eq_refl eq_refl)
    as (p & s' & Hnew & _ & Hrproto & Hlproto & Hopen & _ & _ & Hw & _).
  exists p, s'. repeat split; try assumption.
Defined.

(** ** Several messages in a row *)

Lemma push_nil (e : End) (w : Wire) : push e [] w = w.
Proof.
  destruct w as [q1 q2 c1 c2], e; cbn [push a2b b2a closedA closedB];
    rewrite app_nil_r; reflexivity.
Qed.

Lemma push_push (e : End) (b1 b2 : list byte) (w : Wire) :
  push e b2 (push e b1 w) = push e (b1 ++ b2) w.
Proof.
  destruct w as [q1 q2 c1 c2], e; cbn [push a2b b2a closedA closedB];
    rewrite app_assoc; reflexivity.
Qed.

Lemma SendAll_wire (msgs : list Message) (pa : conn Wire) :
  netc pa = wire_conn EndA ->
  wlock pa = false ->
  forall (w : Wire) (l : list Call),
    closedA w = false ->
    exists new,
      run (SendAll msgs) (mkState pa w l) =
      Some (map (fun _ => None) msgs,
            mkState pa (push EndA (concat (map frame msgs)) w) (l ++ new)).
Proof.
  intros Hc Hl.
  induction msgs as [|m msgs IH]; intros w l Hcl.
  - exists []. cbn [SendAll run map concat].
    rewrite app_nil_r, push_nil. reflexivity.
  - destruct (IH (push EndA (frame m) w)
                (l ++ [CallWrite (BigEndian.PutUint64
                                    (len (Header m) + len (Body m)));
                       CallWrite (Header m); CallWrite (Body m)]))
      as [new Hrest].
    { destruct w as [q1 q2 c1 c2]; exact Hcl. }
    eexists (_ ++ new).
    cbn [SendAll map concat]. rewrite run_bind, (Send_wire m pa w l Hc Hl Hcl).
    rewrite run_bind, Hrest. cbn [run].
    rewrite app_assoc, push_push. reflexivity.
Qed.

(** X8: messages sent one after the other at one end of a wire are
    received at the other end one by one, in the order they were sent and
    each with its own bytes: the frames keep the boundaries between the
    messages, those of empty messages too.  Every send returns no error,
    and after as many receives as there were sends nothing is left on the
    wire. *)
Theorem SendAll_RecvN_in_order (msgs : list Message) (pa pb : conn Wire)
    (w : Wire) (la lb : list Call) :
  Forall (fun m => len (Header m) + len (Body m) <= 1048576) msgs ->
  netc pa = wire_conn EndA -> wlock pa = false ->
  netc pb = wire_conn EndB -> rlock pb = false ->
  closedA w = false -> closedB w = false -> a2b w = [] ->
  exists (sa sb : State Wire),
    run (SendAll msgs) (mkState pa w la) = Some (map (fun _ => None) msgs, sa) /\
    a2b (world sa) = concat (map frame msgs) /\
    run (RecvN (length msgs)) (mkState pb (world sa) lb) =
      Some (map (fun m => (Some (delivered m), None)) msgs, sb) /\
    a2b (world sb) = [].
Proof.
  intros Hbound Hca Hla Hcb Hlb HclA HclB Hq.
  destruct (SendAll_wire msgs pa Hca Hla w la HclA) as [new1 Hsend].
  rewrite Hsend. cbn [world].
  destruct (RecvN_wire msgs [] pb Hcb Hlb Hbound
              (push EndA (concat (map frame msgs)) w) lb) as [new2 Hrecv].
  - destruct w as [q1 q2 c1 c2]; exact HclB.
  - destruct w as [q1 q2 c1 c2]. cbn [push a2b] in *.
    rewrite Hq, app_nil_r. reflexivity.
  - eexists _, _. split; [reflexivity|].
    split; [destruct w as [q1 q2 c1 c2]; cbn [push a2b world] in *;
            rewrite Hq; reflexivity|].
    split; [exact Hrecv|]. reflexivity.
Qed.

(** Three messages, the second one empty. *)
Lemma SendAll_RecvN_in_order_witness :
  let m1 := {| Header := [Byte.x01]; Body := [Byte.x02] |} in
  let m2 := {| Header := []; Body := [] |} in
  let m3 := {| Header := []; Body := [Byte.x03; Byte.x04] |} in
  let w := mkWire [] [] false false in
  let pa := new_conn (wire_conn EndA) 1 in
  let pb := new_conn (wire_conn EndB) 2 in
  Forall (fun m => len (Header m) + len (Body m) <= 1048576) [m1; m2; m3] /\
  exists (sa sb : State Wire),
    run (SendAll [m1; m2; m3]) (mkState pa w []) = Some ([None; None; None], sa) /\
    run (RecvN 3) (mkState pb (world sa) []) =
      Some ([(Some {| Header := []; Body := [Byte.x01; Byte.x02] |}, None);
             (Some {| Header := []; Body := [] |}, None);
             (Some {| Header := []; Body := [Byte.x03; Byte.x04] |}, None)], sb) /\
    a2b (world sb) = [].
Proof.
  intros m1 m2 m3 w pa pb.
  assert (Hbound : Forall (fun m => len (Header m) + len (Body m) <= 1048576)
                     [m1; m2; m3]).
  { repeat constructor; vm_compute; discriminate. }
  split; [exact Hbound|].
  destruct (SendAll_RecvN_in_order [m1; m2; m3] pa pb w [] [] Hbound
              eq_refl eq_refl eq_refl eq_refl eq_refl eq_refl eq_refl)
    as (sa & sb & Hsend & _ & Hrecv & Hq).
  exists sa, sb. split; [exact Hsend|]. split; [exact Hrecv | exact Hq].
Defined.

(** ** The wire while senders are at work *)

Lemma written_prefix (k : nat) (msg : Message) :
  exists rest, frame msg = written k msg ++ rest.
Proof.
  destruct k as [|[|[|[|k]]]]; unfold written, frame.
  - eexists. reflexivity.
  - eexists. reflexivity.
  - eexists. reflexivity.
  - eexists. rewrite <- app_assoc. reflexivity.
  - exists []. rewrite app_nil_r. reflexivity.
Qed.

(** X9: at every moment of every interleaving of concurrent sends, the
    bytes put on the wire are whole frames of messages of the callers, one
    after the other, followed at most by the beginning of one more frame;
    a beginning is there only while a sender holds the write mutex.  A
    reader of the wire never finds bytes of two messages mixed. *)
Theorem senders_wire_at_every_moment (msgs : list Message) (pa : conn Wire)
    (w : Wire) (la : list Call) (ts : list (Prog (option error)))
    (s : State Wire) :
  netc pa = wire_conn EndA -> wlock pa = false -> closedA w = false ->
  pool_steps (map Send msgs, mkState pa w la) (ts, s) ->
  exists (done : list Message) (part : list byte),
    a2b (world s) = a2b w ++ concat (map frame done) ++ part /\
    (forall m, In m done -> In m msgs) /\
    (part = [] \/ exists m rest, In m msgs /\ frame m = part ++ rest) /\
    (wlock (pipe s) = false -> part = []) /\
    length ts = length msgs.
Proof.
  intros Hc Hl Hcl Hsteps.
  pose proof (senders_inv_steps w msgs _ _ Hsteps
                (senders_inv_init msgs pa w la Hc Hl Hcl)) as Hinv.
  destruct Hinv as (waiting & done & cur & Hts & Hms & Hok & Hlock & _ & Hq & _).
  cbn [fst snd] in *.
  exists done, (holder_bytes cur). split; [exact Hq|]. split; [|split; [|split]].
  - intros m Hin. symmetry in Hms. apply (Permutation_in _ Hms).
    apply in_or_app. right. apply in_or_app. right. exact Hin.
  - destruct cur as [[m k]|]; [right | left; reflexivity].
    destruct (written_prefix k m) as [rest Hrest].
    exists m, rest. split; [|exact Hrest].
    symmetry in Hms. apply (Permutation_in _ Hms). left. reflexivity.
  - intros Hfree. rewrite Hfree in Hlock.
    destruct cur as [[m k]|]; [discriminate Hlock | reflexivity].
  - rewrite (Permutation_length Hts), (Permutation_length Hms).
    rewrite !length_app, !length_map.
    destruct cur as [[m k]|]; reflexivity.
Qed.

(** The second of two senders has written its length prefix and its
    header; the first one waits. *)
Lemma senders_wire_at_every_moment_witness :
  let m1 := {| Header := [Byte.x01]; Body := [Byte.x02] |} in
  let m2 := {| Header := [Byte.x03]; Body := [Byte.x04] |} in
  let w := mkWire [] [] false false in
  let pa := new_conn (wire_conn EndA) 1 in
  exists (ts : list (Prog (option error))) (s : State Wire),
    pool_steps (map Send [m1; m2], mkState pa w []) (ts, s) /\
    a2b (world s) = BigEndian.PutUint64 2 ++ [Byte.x03] /\
    wlock (pipe s) = true /\
    exists (done : list Message) (part : list byte),
      a2b (world s) = a2b w ++ concat (map frame done) ++ part /\
      (part = [] \/ exists m rest, In m [m1; m2] /\ frame m = part ++ rest).
Proof.
  intros m1 m2 w pa.
  assert (Hsteps : exists ts s,
             pool_steps (map Send [m1; m2], mkState pa w []) (ts, s) /\
             a2b (world s) = BigEndian.PutUint64 2 ++ [Byte.x03] /\
             wlock (pipe s) = true).
  { eexists _, _. split; [|split].
    - do 3 (eapply pool_steps_step;
            [apply (pool_step_thread [Send m1] []); reflexivity|]).
      apply pool_steps_refl.
    - reflexivity.
    - reflexivity. }
  destruct Hsteps as (ts & s & Hsteps & Hq & Hlock).
  exists ts, s. split; [exact Hsteps|]. split; [exact Hq|].
  split; [exact Hlock|].
  destruct (senders_wire_at_every_moment [m1; m2] pa w [] ts s
              eq_refl eq_refl eq_refl Hsteps)
    as (done & part & Hwire & _ & Hpart & _).
  exists done, part. split; [exact Hwire | exact Hpart].
Defined.

(** ** Concurrent receivers *)

Lemma frame_accepted (msg : Message) :
  len (Header msg) + len (Body msg) <= 1048576 ->
  int64 (BigEndian.Uint64
           (BigEndian.PutUint64 (len (Header msg) + len (Body msg))))
  = len (Header msg) + len (Body msg).
Proof.
  intros Hb.
  assert (0 <= len (Header msg) + len (Body msg)) by (unfold len; lia).
  rewrite Uint64_PutUint64, uint64_small by lia. apply int64_small. lia.
Qed.

(** Programs, step by step. *)

Lemma bind_Ret {A B : Type} (a : A) (f : A -> Prog B) : bind (Ret a) f = f a.
Proof. reflexivity. Qed.

Lemma bind_trigger {X B : Type} (e : connE X) (f : X -> Prog B) :
  bind (trigger e) f = Op e f.
Proof. reflexivity. Qed.

Lemma bind_Op {X A B : Type} (e : connE X) (k : X -> Prog A) (f : A -> Prog B) :
  bind (Op e k) f = Op e (fun x => bind (k x) f).
Proof. reflexivity. Qed.

Lemma after_Op {X A : Type} (e : connE X) (k : X -> Prog A) (a : answer)
    (tr : list answer) :
  after (Op e k) (a :: tr) =
  match cast e a with Some x => after (k x) tr | None => Op e k end.
Proof. reflexivity. Qed.

Lemma after_nil {A : Type} (t : Prog A) : after t [] = t.
Proof. reflexivity. Qed.

Lemma thread_step_Op {W X A : Type} (e : connE X) (k : X -> Prog A)
    (s : State W) :
  thread_step (Op e k) s =
  match handle e s with Some (x, s') => Some (k x, s') | None => None end.
Proof. reflexivity. Qed.

Ltac prog_norm :=
  repeat (rewrite ?bind_trigger, ?bind_Op, ?bind_Ret, ?after_Op, ?after_nil;
          cbn [cast]; cbv beta iota).

(** The steps of a receiver. *)

Lemma receiver_step_lock (s s' : State Wire)
    (t' : Prog (option Message * option error)) (msg : Message) :
  thread_step Recv s = Some (t', s') ->
  rlock (pipe s) = false /\
  t' = recv_stage 1 msg /\
  s' = with_pipe (set_mutex RLock true (pipe s)) s.
Proof.
  unfold Recv. cbn [thread_step bind trigger handle held].
  destruct (rlock (pipe s)); [discriminate|].
  intros [= <- <-]. repeat split.
Qed.

Lemma wire_read_front (n : nat) (front rest : list byte) (w : Wire) :
  closedB w = false ->
  a2b w = front ++ rest ->
  length front = n ->
  wire_ReadFull EndB n w = (front, None, set_inbox EndB rest w).
Proof.
  intros Hcl Hq <-. unfold wire_ReadFull. cbn [closed inbox].
  rewrite Hcl, Hq, length_app.
  replace (length front <=? length front + length rest)%nat with true
    by (symmetry; apply Nat.leb_le; lia).
  rewrite firstn_app, firstn_all, Nat.sub_diag, firstn_O, app_nil_r.
  rewrite skipn_app, skipn_all, Nat.sub_diag, skipn_O, app_nil_l.
  reflexivity.
Qed.

Lemma length_accepted (bs : list byte) :
  0 <= int64 (BigEndian.Uint64 bs) <= 1048576 ->
  (int64 (BigEndian.Uint64 bs) >? 1024 * 1024)
  || (int64 (BigEndian.Uint64 bs) <? 0) = false.
Proof. intros Hb. apply orb_false_iff. split; lia. Qed.

Section ReceiverSteps.
Variable s : State Wire.
Hypothesis Hc : netc (pipe s) = wire_conn EndB.
Hypothesis Hcl : closedB (world s) = false.

(** The length prefix. *)
Lemma receiver_step_prefix (bs rest : list byte) :
  length bs = 8%nat ->
  a2b (world s) = bs ++ rest ->
  thread_step (after Recv [AUnit]) s =
  Some (after Recv [AUnit; ARead bs None],
        mkState (pipe s) (set_inbox EndB rest (world s))
          (calls s ++ [CallReadFull 8])).
Proof.
  intros Hlen Hq.
  unfold Recv, defer, binary_Read_int64. prog_norm.
  rewrite thread_step_Op, handle_ReadFull_8, Hc.
  cbn [wire_conn conn_ReadFull].
  rewrite (wire_read_front 8 bs rest (world s) Hcl Hq Hlen).
  rewrite (fill_full (make 8) bs) by (rewrite Hlen; reflexivity).
  prog_norm. reflexivity.
Qed.

Variables (bs payload : list byte).
Hypothesis Hbound : 0 <= int64 (BigEndian.Uint64 bs) <= 1048576.
Hypothesis Hlen : Z.to_nat (int64 (BigEndian.Uint64 bs)) = length payload.

(** The bytes of header and body. *)
Lemma receiver_step_body (rest : list byte) :
  a2b (world s) = payload ++ rest ->
  exists new,
    thread_step (after Recv [AUnit; ARead bs None]) s =
    Some (after Recv [AUnit; ARead bs None; ARead payload None],
          mkState (pipe s) (set_inbox EndB rest (world s)) (calls s ++ new)).
Proof.
  intros Hq.
  unfold Recv, defer, binary_Read_int64. prog_norm.
  rewrite (length_accepted bs Hbound). prog_norm. cbn [Body Header].
  rewrite thread_step_Op, handle_ReadFull, make_length, Hlen.
  destruct payload as [|b payload'] eqn:Hp.
  - exists []. cbn [length Nat.eqb]. cbn [app] in Hq.
    rewrite <- Hq, set_inbox_same, app_nil_r.
    replace (make (int64 (BigEndian.Uint64 bs))) with (@nil byte)
      by (unfold make; rewrite Hlen; reflexivity).
    destruct s; reflexivity.
  - exists [CallReadFull (length (b :: payload'))].
    cbn [length Nat.eqb]. rewrite Hc. cbn [wire_conn conn_ReadFull].
    rewrite (wire_read_front (S (length payload')) (b :: payload') rest
               (world s) Hcl Hq eq_refl).
    rewrite fill_full by (rewrite make_length, Hlen; reflexivity).
    reflexivity.
Qed.

(** The unlock. *)
Lemma receiver_step_unlock (s' : State Wire)
    (t' : Prog (option Message * option error)) :
  thread_step (after Recv [AUnit; ARead bs None; ARead payload None]) s
    = Some (t', s') ->
  rlock (pipe s) = true /\
  t' = Ret (Some {| Header := []; Body := payload |}, None) /\
  s' = with_pipe (set_mutex RLock false (pipe s)) s.
Proof.
  unfold Recv, defer, binary_Read_int64. prog_norm.
  rewrite (length_accepted bs Hbound). prog_norm. cbn [Body Header].
  rewrite thread_step_Op. cbn [handle held].
  destruct (rlock (pipe s)); [|discriminate].
  intros [= <- <-]. repeat split.
Qed.

Lemma receiver_not_finished :
  ~ finished (after Recv [AUnit]) /\
  ~ finished (after Recv [AUnit; ARead bs None]) /\
  ~ finished (after Recv [AUnit; ARead bs None; ARead payload None]).
Proof.
  unfold Recv, defer, binary_Read_int64. prog_norm.
  rewrite (length_accepted bs Hbound). prog_norm.
  repeat split; intros [a Ha]; discriminate Ha.
Qed.

End ReceiverSteps.

Lemma recv_stage_1 (msg : Message) : recv_stage 1 msg = after Recv [AUnit].
Proof. reflexivity. Qed.

Lemma recv_stage_2 (msg : Message) :
  recv_stage 2 msg =
  after Recv [AUnit;
              ARead (BigEndian.PutUint64 (len (Header msg) + len (Body msg)))
                None].
Proof. reflexivity. Qed.

Lemma recv_stage_3 (msg : Message) :
  recv_stage 3 msg =
  after Recv [AUnit;
              ARead (BigEndian.PutUint64 (len (Header msg) + len (Body msg)))
                None;
              ARead (Header msg ++ Body msg) None].
Proof. reflexivity. Qed.

Lemma frame_bound (msg : Message) :
  len (Header msg) + len (Body msg) <= 1048576 ->
  0 <= int64 (BigEndian.Uint64
                (BigEndian.PutUint64 (len (Header msg) + len (Body msg))))
    <= 1048576.
Proof.
  intros Hb. rewrite frame_accepted by exact Hb. unfold len in *. lia.
Qed.

Lemma frame_payload_length (msg : Message) :
  len (Header msg) + len (Body msg) <= 1048576 ->
  Z.to_nat (int64 (BigEndian.Uint64
                     (BigEndian.PutUint64 (len (Header msg) + len (Body msg)))))
  = length (Header msg ++ Body msg).
Proof.
  intros Hb. rewrite frame_accepted by exact Hb.
  unfold len. rewrite length_app. lia.
Qed.

Lemma receivers_inv_init (order : list Message) (pb : conn Wire) (w : Wire)
    (lb : list Call) :
  netc pb = wire_conn EndB -> rlock pb = false -> closedB w = false ->
  a2b w = concat (map frame order) ->
  receivers_inv order (repeat Recv (length order), mkState pb w lb).
Proof.
  intros Hc Hl Hcl Hq. exists [], order, None.
  cbn [fst snd pipe world rholder_thread holder_msg rholder_bytes rholder_ok
       is_some map app].
  rewrite app_nil_r. repeat split; auto.
Qed.

Lemma receivers_inv_step (order : list Message)
    (c c' : list (Prog (option Message * option error)) * State Wire) :
  Forall (fun m => len (Header m) + len (Body m) <= 1048576) order ->
  receivers_inv order c -> pool_step c c' -> receivers_inv order c'.
Proof.
  intros Hbound (done & todo & cur & Hord & Hts & Hok & Hlock & Hc & Hq & Hcl)
         Hstep.
  destruct Hstep as [l1 l2 t t' s s' Hstep].
  cbn [fst snd] in *.
  assert (Hin : In t (rholder_thread cur ++ repeat Recv (length todo)
                        ++ map (fun m => Ret (Some (delivered m), None)) done)).
  { apply (Permutation_in _ Hts). apply in_elt. }
  apply in_app_or in Hin. destruct Hin as [Hin | Hin].
  - (* the holder of the mutex moves on *)
    destruct cur as [[m k]|]; [|destruct Hin].
    destruct Hin as [<- | []]. cbn [rholder_ok] in Hok.
    cbn [rholder_thread holder_msg rholder_bytes is_some app] in *.
    assert (Hm : len (Header m) + len (Body m) <= 1048576).
    { rewrite Forall_forall in Hbound. apply Hbound. rewrite Hord.
      apply in_or_app. right. left. reflexivity. }
    destruct k as [|[|[|[|k]]]]; try lia.
    + (* the length prefix *)
      rewrite recv_stage_1 in Hstep.
      rewrite (receiver_step_prefix s Hc Hcl
                 (BigEndian.PutUint64 (len (Header m) + len (Body m)))
                 ((Header m ++ Body m) ++ concat (map frame todo)) eq_refl)
        in Hstep
        by (rewrite Hq; unfold unread, frame; rewrite <- !app_assoc;
            reflexivity).
      rewrite <- recv_stage_2 in Hstep. injection Hstep as <- <-.
      exists done, todo, (Some (m, 2%nat)).
      cbn [fst snd rholder_thread holder_msg rholder_bytes rholder_ok is_some
           app pipe world set_inbox a2b closedB unread].
      repeat split; auto; try lia.
      apply (pool_replace _ _ _ _ (recv_stage 2 m)) in Hts. exact Hts.
    + (* header and body *)
      rewrite recv_stage_2 in Hstep.
      destruct (receiver_step_body s Hc Hcl _ (Header m ++ Body m)
                  (frame_bound m Hm) (frame_payload_length m Hm)
                  (concat (map frame todo)) Hq) as [new Hst].
      rewrite Hst in Hstep. rewrite <- recv_stage_3 in Hstep.
      injection Hstep as <- <-.
      exists done, todo, (Some (m, 3%nat)).
      cbn [fst snd rholder_thread holder_msg rholder_bytes rholder_ok is_some
           app pipe world set_inbox a2b closedB unread].
      repeat split; auto; try lia.
      apply (pool_replace _ _ _ _ (recv_stage 3 m)) in Hts. exact Hts.
    + (* the unlock *)
      rewrite recv_stage_3 in Hstep.
      apply (receiver_step_unlock s _ (Header m ++ Body m)
               (frame_bound m Hm)) in Hstep.
      destruct Hstep as (_ & -> & ->).
      exists (done ++ [m]), todo, None.
      cbn [fst snd rholder_thread holder_msg rholder_bytes rholder_ok is_some
           app with_pipe pipe world unread] in *.
      rewrite netc_set_mutex.
      repeat split; auto.
      * rewrite Hord, <- app_assoc. reflexivity.
      * apply (pool_replace _ _ _ _
                 (Ret (Some (delivered m), None))) in Hts.
        rewrite Hts, map_app. cbn [map].
        rewrite app_assoc. apply Permutation_cons_append.
  - apply in_app_or in Hin. destruct Hin as [Hin | Hin].
    + (* a waiting receiver takes the mutex *)
      apply repeat_spec in Hin. subst t.
      destruct todo as [|m todo].
      { exfalso. cbn [length repeat app] in Hts.
        destruct cur as [[m k]|].
        - cbn [is_some] in Hlock.
          destruct (thread_step Recv s) as [[t1 s1]|] eqn:Hst; [|discriminate].
          apply (receiver_step_lock s s1 t1 m) in Hst.
          destruct Hst as (Hfree & _). congruence.
        - cbn [rholder_thread app] in Hts.
          assert (Hin : In Recv (map (fun m => Ret (Some (delivered m), None))
                                     done)).
          { apply (Permutation_in _ Hts). apply in_elt. }
          apply in_map_iff in Hin. destruct Hin as (m & Hm & _).
          discriminate Hm. }
      apply (receiver_step_lock s s' t' m) in Hstep.
      destruct Hstep as (Hfree & -> & ->).
      rewrite Hfree in Hlock. destruct cur as [[m' k']|]; [discriminate Hlock|].
      cbn [rholder_thread holder_msg rholder_bytes is_some app length repeat
           map concat] in *.
      exists done, todo, (Some (m, 1%nat)).
      cbn [fst snd rholder_thread holder_msg rholder_bytes rholder_ok is_some
           app with_pipe pipe world unread].
      rewrite netc_set_mutex.
      repeat split; auto; try lia.
      apply (pool_replace _ _ _ Recv (recv_stage 1 m)). exact Hts.
    + (* a receiver that has returned takes no step *)
      apply in_map_iff in Hin. destruct Hin as (m & <- & _).
      discriminate Hstep.
Qed.

Lemma receivers_inv_steps (order : list Message)
    (c c' : list (Prog (option Message * option error)) * State Wire) :
  Forall (fun m => len (Header m) + len (Body m) <= 1048576) order ->
  pool_steps c c' -> receivers_inv order c -> receivers_inv order c'.
Proof.
  intros Hbound. induction 1 as [c | c1 c2 c3 Hstep _ IH]; intros Hinv.
  - exact Hinv.
  - apply IH. exact (receivers_inv_step order c1 c2 Hbound Hinv Hstep).
Qed.

Lemma Recv_not_finished : ~ finished Recv.
Proof. intros [a Ha]. unfold Recv in Ha. rewrite bind_trigger in Ha. discriminate Ha. Qed.

(** X10: callers that receive concurrently on one pipe serialize on the
    read mutex.  When the frames of as many messages as there are callers
    wait at the end of the wire, then, whatever the interleaving, once all
    callers have returned each of them has returned one whole message and
    no error, together they have returned exactly the messages that
    waited, and nothing is left on the wire: no caller gets bytes of the
    frame another caller has started to read. *)
Theorem concurrent_receives_serialize (order : list Message) (pb : conn Wire)
    (w : Wire) (lb : list Call)
    (ts : list (Prog (option Message * option error))) (s' : State Wire) :
  netc pb = wire_conn EndB -> rlock pb = false ->
  closedB w = false ->
  a2b w = concat (map frame order) ->
  Forall (fun m => len (Header m) + len (Body m) <= 1048576) order ->
  pool_steps (repeat Recv (length order), mkState pb w lb) (ts, s') ->
  Forall finished ts ->
  Permutation ts (map (fun m => Ret (Some (delivered m), None)) order) /\
  a2b (world s') = [] /\
  rlock (pipe s') = false /\
  closedB (world s') = false.
Proof.
  intros Hc Hl Hcl Hq Hbound Hsteps Hfin.
  pose proof (receivers_inv_steps order _ _ Hbound Hsteps
                (receivers_inv_init order pb w lb Hc Hl Hcl Hq)) as Hinv.
  destruct Hinv as (done & todo & cur & Hord & Hts & Hok & Hlock & _ & Hwire & HclB).
  cbn [fst snd] in *.
  rewrite Hts in Hfin.
  apply Forall_app in Hfin. destruct Hfin as [Hcur Hfin].
  apply Forall_app in Hfin. destruct Hfin as [Hwait _].
  destruct cur as [[m k]|].
  { exfalso. cbn [rholder_thread rholder_ok] in *.
    inversion Hcur as [|? ? Hf _]; subst.
    assert (Hm : len (Header m) + len (Body m) <= 1048576).
    { rewrite Forall_forall in Hbound. apply Hbound.
      apply in_or_app. right. left. reflexivity. }
    destruct (receiver_not_finished _ (Header m ++ Body m) (frame_bound m Hm))
      as (H1 & H2 & H3).
    destruct k as [|[|[|[|k]]]]; try lia.
    - apply H1. rewrite <- (recv_stage_1 m). exact Hf.
    - apply H2. rewrite <- recv_stage_2. exact Hf.
    - apply H3. rewrite <- recv_stage_3. exact Hf. }
  destruct todo as [|m todo].
  2: { exfalso. cbn [length repeat] in Hwait.
       inversion Hwait as [|? ? Hf _]; subst. exact (Recv_not_finished Hf). }
  cbn [rholder_thread holder_msg rholder_bytes is_some length repeat map
       concat app] in *.
  rewrite app_nil_r in Hord. subst done.
  repeat split; assumption.
Qed.


Lemma pool_steps_trans {W A : Type}
    (c1 c2 c3 : list (Prog A) * State W) :
  pool_steps c1 c2 -> pool_steps c2 c3 -> pool_steps c1 c3.
Proof.
  induction 1 as [c | c1 c2 c2' Hstep _ IH]; intros H23.
  - exact H23.
  - eapply pool_steps_step; [exact Hstep | exact (IH H23)].
Qed.

(** One receiver of a pool, from the lock to the return. *)
Lemma receiver_alone (m : Message) (rest : list byte)
    (l1 l2 : list (Prog (option Message * option error))) (s : State Wire) :
  netc (pipe s) = wire_conn EndB ->
  closedB (world s) = false ->
  rlock (pipe s) = false ->
  len (Header m) + len (Body m) <= 1048576 ->
  a2b (world s) = frame m ++ rest ->
  exists new,
    pool_steps (l1 ++ Recv :: l2, s)
      (l1 ++ Ret (Some (delivered m), None) :: l2,
       mkState (pipe s) (set_inbox EndB rest (world s)) (calls s ++ new)).
Proof.
  intros Hc Hcl Hl Hm Hq.
  set (s1 := with_pipe (set_mutex RLock true (pipe s)) s).
  assert (H1 : thread_step Recv s = Some (after Recv [AUnit], s1)).
  { unfold Recv. rewrite bind_trigger, thread_step_Op. cbn [handle held].
    rewrite Hl. prog_norm. reflexivity. }
  assert (Hc1 : netc (pipe s1) = wire_conn EndB)
    by (unfold s1; cbn [with_pipe pipe]; rewrite netc_set_mutex; exact Hc).
  pose proof (receiver_step_prefix s1 Hc1 Hcl
                (BigEndian.PutUint64 (len (Header m) + len (Body m)))
                ((Header m ++ Body m) ++ rest) eq_refl) as H2.
  specialize (H2 ltac:(unfold s1; cbn [with_pipe world]; rewrite Hq;
                       unfold frame; rewrite <- !app_assoc; reflexivity)).
  set (s2 := mkState (pipe s1)
               (set_inbox EndB ((Header m ++ Body m) ++ rest) (world s1))
               (calls s1 ++ [CallReadFull 8])) in *.
  destruct (receiver_step_body s2 Hc1 Hcl _ (Header m ++ Body m)
              (frame_bound m Hm) (frame_payload_length m Hm) rest eq_refl)
    as [new H3].
  set (s3 := mkState (pipe s2) (set_inbox EndB rest (world s2))
               (calls s2 ++ new)) in *.
  destruct (thread_step
              (after Recv
                 [AUnit;
                  ARead (BigEndian.PutUint64 (len (Header m) + len (Body m)))
                    None;
                  ARead (Header m ++ Body m) None]) s3)
    as [[t4 s4]|] eqn:H4.
  2: { exfalso. revert H4.
       unfold Recv, defer, binary_Read_int64. prog_norm.
       rewrite (length_accepted _ (frame_bound m Hm)). prog_norm.
       rewrite thread_step_Op. discriminate. }
  destruct (receiver_step_unlock s3 _ _ (frame_bound m Hm) s4 t4 H4)
    as (_ & -> & ->).
  exists ([CallReadFull 8] ++ new).
  eapply pool_steps_step; [apply pool_step_thread; exact H1|].
  eapply pool_steps_step; [apply pool_step_thread; exact H2|].
  eapply pool_steps_step; [apply pool_step_thread; exact H3|].
  eapply pool_steps_step; [apply pool_step_thread; exact H4|].
  replace (with_pipe (set_mutex RLock false (pipe s3)) s3)
    with (mkState (pipe s) (set_inbox EndB rest (world s))
            (calls s ++ [CallReadFull 8] ++ new)).
  - apply pool_steps_refl.
  - unfold s3, s2, s1. cbn [with_pipe pipe world calls].
    rewrite (unlock_lock RLock (pipe s)) by exact Hl.
    rewrite app_assoc. reflexivity.
Qed.

(** Two frames wait and two callers receive; the second caller gets the
    mutex first, and so the first message. *)
Lemma concurrent_receives_serialize_witness :
  let m1 := {| Header := [Byte.x01]; Body := [Byte.x02] |} in
  let m2 := {| Header := []; Body := [Byte.x03; Byte.x04] |} in
  let w := mkWire (frame m1 ++ frame m2) [] false false in
  let pb := new_conn (wire_conn EndB) 2 in
  Forall (fun m => len (Header m) + len (Body m) <= 1048576) [m1; m2] /\
  exists (ts : list (Prog (option Message * option error))) (s' : State Wire),
    pool_steps (repeat Recv 2, mkState pb w []) (ts, s') /\
    ts = [Ret (Some (delivered m2), None); Ret (Some (delivered m1), None)] /\
    Permutation ts (map (fun m => Ret (Some (delivered m), None)) [m1; m2]) /\
    a2b (world s') = [].
Proof.
  intros m1 m2 w pb.
  assert (Hb1 : len (Header m1) + len (Body m1) <= 1048576)
    by (vm_compute; discriminate).
  assert (Hb2 : len (Header m2) + len (Body m2) <= 1048576)
    by (vm_compute; discriminate).
  assert (Hbound : Forall (fun m => len (Header m) + len (Body m) <= 1048576)
                     [m1; m2]) by (repeat constructor; assumption).
  split; [exact Hbound|].
  destruct (receiver_alone m1 (frame m2) [Recv] [] (mkState pb w [])
              eq_refl eq_refl eq_refl Hb1 eq_refl) as [new1 Hrun1].
  cbn [pipe world calls app] in Hrun1.
  destruct (receiver_alone m2 [] [] [Ret (Some (delivered m1), None)]
              (mkState pb (set_inbox EndB (frame m2) w) new1)
              eq_refl eq_refl eq_refl Hb2 (eq_sym (app_nil_r _)))
    as [new2 Hrun2].
  cbn [pipe world calls app] in Hrun2.
  assert (Hsteps : pool_steps (repeat Recv 2, mkState pb w [])
                     ([Ret (Some (delivered m2), None);
                       Ret (Some (delivered m1), None)],
                      mkState pb (set_inbox EndB [] (set_inbox EndB (frame m2) w))
                        (new1 ++ new2))).
  { exact (pool_steps_trans _ _ _ Hrun1 Hrun2). }
  eexists _, _. split; [exact Hsteps|]. split; [reflexivity|].
  assert (Hfin : Forall (@finished (option Message * option error))
                   [Ret (Some (delivered m2), None);
                    Ret (Some (delivered m1), None)])
    by (apply Forall_cons; [eexists; reflexivity|];
        apply Forall_cons; [eexists; reflexivity | apply Forall_nil]).
  destruct (concurrent_receives_serialize [m1; m2] pb w [] _ _
              eq_refl eq_refl eq_refl eq_refl Hbound Hsteps Hfin)
    as (Hperm & Hq & _).
  split; [exact Hperm | exact Hq].
Defined.

(** ** The handshake of two pipes *)

Lemma wire_read_all (e : End) (n : nat) (front : list byte) (w : Wire) :
  closed e w = false ->
  inbox e w = front ->
  length front = n ->
  wire_ReadFull e n w = (front, None, set_inbox e [] w).
Proof.
  intros Hcl Hq <-. unfold wire_ReadFull. rewrite Hcl, Hq, Nat.leb_refl.
  rewrite firstn_all, skipn_all. reflexivity.
Qed.

Section HandshakeSteps.
Variable e : End.
Variables lp rp : Z.
Hypothesis Hrp : 0 <= rp < 65536.

Lemma hs_checks :
  byte_neq (connHeader.Zero (connHeader.decode (handshake_header rp))) Byte.x00
  || byte_neq (connHeader.S (connHeader.decode (handshake_header rp))) "S"%byte
  || byte_neq (connHeader.P (connHeader.decode (handshake_header rp))) "P"%byte
  || negb (connHeader.Rsvd (connHeader.decode (handshake_header rp)) =? 0)
  = false /\
  byte_neq (connHeader.Version (connHeader.decode (handshake_header rp)))
    Byte.x00 = false /\
  connHeader.Proto (connHeader.decode (handshake_header rp)) = rp.
Proof. exact (decode_handshake_header rp Hrp). Qed.

Lemma hs_step_0 (w : Wire) :
  ep_step e (hs_endpoint e 0 lp rp) w = Some (hs_endpoint e 1 lp rp, w).
Proof.
  unfold ep_step, hs_endpoint, hs_answers.
  cbn [firstn ep_thread ep_pipe ep_calls hs_pipe hs_calls].
  unfold handshake. prog_norm. cbn [waits_for_bytes].
  rewrite thread_step_Op. cbn [handle pipe world calls new_conn lproto].
  reflexivity.
Qed.

Lemma hs_step_1 (w : Wire) :
  closed e w = false ->
  ep_step e (hs_endpoint e 1 lp rp) w =
  Some (hs_endpoint e 2 lp rp, push e (handshake_header lp) w).
Proof.
  intros Hcl.
  unfold ep_step, hs_endpoint, hs_answers.
  cbn [firstn ep_thread ep_pipe ep_calls hs_pipe hs_calls].
  unfold handshake, binary_Write_connHeader. prog_norm.
  cbn [waits_for_bytes].
  rewrite thread_step_Op. cbn [handle pipe world calls new_conn netc].
  cbn [wire_conn conn_Write]. unfold wire_Write. rewrite Hcl.
  reflexivity.
Qed.

Lemma hs_step_2_waits (w : Wire) :
  closed e w = false ->
  inbox e w = [] ->
  ep_step e (hs_endpoint e 2 lp rp) w = None.
Proof.
  intros Hcl Hq.
  unfold ep_step, hs_endpoint, hs_answers.
  cbn [firstn ep_thread ep_pipe ep_calls hs_pipe hs_calls].
  unfold handshake, binary_Write_connHeader, binary_Read_connHeader.
  prog_norm. cbn [waits_for_bytes]. rewrite Hcl, Hq. reflexivity.
Qed.

Lemma hs_step_2 (w : Wire) :
  closed e w = false ->
  inbox e w = handshake_header rp ->
  ep_step e (hs_endpoint e 2 lp rp) w =
  Some (hs_endpoint e 3 lp rp, set_inbox e [] w).
Proof.
  intros Hcl Hq.
  unfold ep_step, hs_endpoint, hs_answers.
  cbn [firstn ep_thread ep_pipe ep_calls hs_pipe hs_calls].
  unfold handshake, binary_Write_connHeader, binary_Read_connHeader.
  prog_norm. cbn [waits_for_bytes]. rewrite Hcl, Hq.
  change (negb false && (length (handshake_header rp) <? length (make 8))%nat)
    with false. cbv iota.
  rewrite thread_step_Op, handle_ReadFull_8.
  cbn [pipe world calls new_conn netc wire_conn conn_ReadFull].
  rewrite (wire_read_all e 8 (handshake_header rp) w Hcl Hq eq_refl).
  rewrite (fill_full (make 8) (handshake_header rp)) by reflexivity.
  prog_norm. reflexivity.
Qed.

Lemma hs_step_3 (w : Wire) :
  ep_step e (hs_endpoint e 3 lp rp) w = Some (hs_endpoint e 4 lp rp, w).
Proof.
  destruct hs_checks as (Hbad & Hver & Hproto).
  unfold ep_step, hs_endpoint, hs_answers.
  cbn [firstn ep_thread ep_pipe ep_calls hs_pipe hs_calls].
  unfold handshake, binary_Write_connHeader, binary_Read_connHeader.
  prog_norm. rewrite Hbad, Hver. prog_norm. rewrite Hproto.
  cbn [waits_for_bytes].
  rewrite thread_step_Op. cbn [handle pipe world calls with_pipe].
  reflexivity.
Qed.

Lemma hs_step_4 (w : Wire) :
  ep_step e (hs_endpoint e 4 lp rp) w = Some (hs_endpoint e 5 lp rp, w).
Proof.
  destruct hs_checks as (Hbad & Hver & Hproto).
  unfold ep_step, hs_endpoint, hs_answers.
  cbn [firstn ep_thread ep_pipe ep_calls hs_pipe hs_calls].
  unfold handshake, binary_Write_connHeader, binary_Read_connHeader.
  prog_norm. rewrite Hbad, Hver. prog_norm.
  cbn [waits_for_bytes].
  rewrite thread_step_Op. cbn [handle pipe world calls with_pipe].
  reflexivity.
Qed.

Lemma hs_done :
  ep_thread (hs_endpoint e 5 lp rp) = Ret None.
Proof.
  destruct hs_checks as (Hbad & Hver & Hproto).
  unfold hs_endpoint, hs_answers. cbn [firstn ep_thread].
  unfold handshake, binary_Write_connHeader, binary_Read_connHeader.
  prog_norm. rewrite Hbad, Hver. prog_norm. reflexivity.
Qed.

Lemma hs_step_5 (w : Wire) : ep_step e (hs_endpoint e 5 lp rp) w = None.
Proof.
  unfold ep_step. rewrite hs_done. reflexivity.
Qed.

End HandshakeSteps.

Ltac hs_rewrite_in H e lp rp Hrp :=
  first
    [ rewrite (hs_step_0 e lp rp) in H
    | rewrite (hs_step_1 e lp rp) in H by reflexivity
    | rewrite (hs_step_2_waits e lp rp) in H by reflexivity
    | rewrite (hs_step_2 e lp rp) in H by reflexivity
    | rewrite (hs_step_3 e lp rp Hrp) in H
    | rewrite (hs_step_4 e lp rp Hrp) in H
    | rewrite (hs_step_5 e lp rp Hrp) in H ].

Ltac hs_apply e lp rp Hrp :=
  first
    [ apply (hs_step_0 e lp rp)
    | apply (hs_step_1 e lp rp); reflexivity
    | apply (hs_step_2 e lp rp); reflexivity
    | apply (hs_step_3 e lp rp Hrp)
    | apply (hs_step_4 e lp rp Hrp) ].

Section HandshakeExchange.
Variables lpa lpb : Z.
Hypothesis Ha : 0 <= lpa < 65536.
Hypothesis Hb : 0 <= lpb < 65536.

Lemma hs_reached_step (n : nat) (c c' : endpoint * endpoint * Wire) :
  hs_reached lpa lpb n c -> duo_step c c' -> hs_reached lpa lpb (S n) c'.
Proof.
  intros (ka & kb & Hka & Hkb & Hn & Hab & Hba & ->) Hstep.
  inversion Hstep as [a a' b w w' H Heq1 Heq2 | a b b' w w' H Heq1 Heq2];
    subst; clear Hstep.
  - destruct ka as [|[|[|[|[|[|ka]]]]]]; try lia;
      destruct kb as [|[|[|[|[|[|kb]]]]]]; try lia;
      hs_rewrite_in H EndA lpa lpb Hb; try discriminate H;
      injection H as <- <-;
      match goal with
      | |- hs_reached _ _ _ (hs_endpoint EndA ?k _ _, hs_endpoint EndB ?j _ _, _) =>
          exists k, j; repeat split; try lia
      end.
  - destruct ka as [|[|[|[|[|[|ka]]]]]]; try lia;
      destruct kb as [|[|[|[|[|[|kb]]]]]]; try lia;
      hs_rewrite_in H EndB lpb lpa Ha; try discriminate H;
      injection H as <- <-;
      match goal with
      | |- hs_reached _ _ _ (hs_endpoint EndA ?k _ _, hs_endpoint EndB ?j _ _, _) =>
          exists k, j; repeat split; try lia
      end.
Qed.

Lemma hs_reached_steps (n m : nat) (c c' : endpoint * endpoint * Wire) :
  duo_steps m c c' -> hs_reached lpa lpb n c -> hs_reached lpa lpb (m + n) c'.
Proof.
  induction 1 as [c | m c1 c2 c3 Hstep _ IH] in n |- *; intros Hinv.
  - exact Hinv.
  - replace (S m + n)%nat with (m + S n)%nat by lia.
    apply IH. exact (hs_reached_step n c1 c2 Hinv Hstep).
Qed.

Lemma hs_reached_progress (n : nat) (c : endpoint * endpoint * Wire) :
  hs_reached lpa lpb n c -> (n < 10)%nat -> exists c', duo_step c c'.
Proof.
  intros (ka & kb & Hka & Hkb & Hn & Hab & Hba & ->) Hlt.
  destruct ka as [|[|[|[|[|[|ka]]]]]]; try lia;
    destruct kb as [|[|[|[|[|[|kb]]]]]]; try lia;
    first
      [ eexists; apply duo_step_A; hs_apply EndA lpa lpb Hb
      | eexists; apply duo_step_B; hs_apply EndB lpb lpa Ha ].
Qed.

End HandshakeExchange.

(** X11: the handshake of two pipes at the two ends of a wire.  Each
    caller of [NewConnPipe] writes its header and then reads the header of
    the other, a read waiting until the bytes have arrived.  Whatever the
    order in which the two callers take their steps, neither stream gets
    closed, a step is possible as long as fewer than ten have been taken
    (the two callers never wait for each other for good), and after the
    tenth step both handshakes have returned no error, each pipe is open
    and has the local protocol number of the other as its remote protocol,
    and no byte is left on the wire. *)
Theorem handshake_exchange (lpa lpb : Z) (n : nat) (a b : endpoint) (w : Wire) :
  0 <= lpa < 65536 -> 0 <= lpb < 65536 ->
  duo_steps n
    (mkEndpoint handshake (new_conn (wire_conn EndA) lpa) [],
     mkEndpoint handshake (new_conn (wire_conn EndB) lpb) [],
     mkWire [] [] false false)
    (a, b, w) ->
  (n <= 10)%nat /\
  closedA w = false /\ closedB w = false /\
  ((n < 10)%nat -> exists c', duo_step (a, b, w) c') /\
  (n = 10%nat ->
   ep_thread a = Ret None /\ ep_thread b = Ret None /\
   ep_pipe a = set_open true (set_rproto lpb (new_conn (wire_conn EndA) lpa)) /\
   ep_pipe b = set_open true (set_rproto lpa (new_conn (wire_conn EndB) lpb)) /\
   w = mkWire [] [] false false).
Proof.
  intros Ha Hb Hsteps.
  assert (Hinit : hs_reached lpa lpb 0
                    (mkEndpoint handshake (new_conn (wire_conn EndA) lpa) [],
                     mkEndpoint handshake (new_conn (wire_conn EndB) lpb) [],
                     mkWire [] [] false false)).
  { exists 0%nat, 0%nat. repeat split; lia. }
  pose proof (hs_reached_steps lpa lpb Ha Hb 0 n _ _ Hsteps Hinit) as Hinv.
  rewrite Nat.add_0_r in Hinv.
  split; [|split; [|split; [|split]]].
  - destruct Hinv as (ka & kb & Hka & Hkb & Hn & _). lia.
  - destruct Hinv as (ka & kb & _ & _ & _ & _ & _ & [= _ _ ->]). reflexivity.
  - destruct Hinv as (ka & kb & _ & _ & _ & _ & _ & [= _ _ ->]). reflexivity.
  - intros Hlt. exact (hs_reached_progress lpa lpb Ha Hb n _ Hinv Hlt).
  - intros ->. destruct Hinv as (ka & kb & Hka & Hkb & Hn & _ & _ & Heq).
    assert (ka = 5%nat) by lia. assert (kb = 5%nat) by lia. subst ka kb.
    injection Heq as -> -> ->.
    rewrite (hs_done EndA lpa lpb Hb), (hs_done EndB lpb lpa Ha).
    repeat split.
Qed.

(** Protocol numbers 1 and 2; the caller at end A writes, the caller at
    end B writes and reads, the caller at end A reads, both finish. *)
Lemma handshake_exchange_witness :
  0 <= 1 < 65536 /\ 0 <= 2 < 65536 /\
  exists (a b : endpoint) (w : Wire),
    duo_steps 10
      (mkEndpoint handshake (new_conn (wire_conn EndA) 1) [],
       mkEndpoint handshake (new_conn (wire_conn EndB) 2) [],
       mkWire [] [] false false)
      (a, b, w) /\
    ep_thread a = Ret None /\ ep_thread b = Ret None /\
    rproto (ep_pipe a) = 2 /\ rproto (ep_pipe b) = 1 /\
    open (ep_pipe a) = true /\ open (ep_pipe b) = true /\
    w = mkWire [] [] false false.
Proof.
  assert (H1 : 0 <= 1 < 65536) by lia.
  assert (H2 : 0 <= 2 < 65536) by lia.
  split; [exact H1|]. split; [exact H2|].
  assert (Hsteps : exists a b w,
             duo_steps 10
               (mkEndpoint handshake (new_conn (wire_conn EndA) 1) [],
                mkEndpoint handshake (new_conn (wire_conn EndB) 2) [],
                mkWire [] [] false false)
               (a, b, w)).
  { eexists _, _, _.
    change (mkEndpoint handshake (new_conn (wire_conn EndA) 1) [])
      with (hs_endpoint EndA 0 1 2).
    change (mkEndpoint handshake (new_conn (wire_conn EndB) 2) [])
      with (hs_endpoint EndB 0 2 1).
    eapply duo_steps_step; [apply duo_step_A; apply (hs_step_0 EndA 1 2)|].
    eapply duo_steps_step;
      [apply duo_step_A; apply (hs_step_1 EndA 1 2); reflexivity|].
    eapply duo_steps_step; [apply duo_step_B; apply (hs_step_0 EndB 2 1)|].
    eapply duo_steps_step;
      [apply duo_step_B; apply (hs_step_1 EndB 2 1); reflexivity|].
    eapply duo_steps_step;
      [apply duo_step_B; apply (hs_step_2 EndB 2 1); reflexivity|].
    eapply duo_steps_step;
      [apply duo_step_A; apply (hs_step_2 EndA 1 2); reflexivity|].
    eapply duo_steps_step; [apply duo_step_A; apply (hs_step_3 EndA 1 2 H2)|].
    eapply duo_steps_step; [apply duo_step_A; apply (hs_step_4 EndA 1 2 H2)|].
    eapply duo_steps_step; [apply duo_step_B; apply (hs_step_3 EndB 2 1 H1)|].
    eapply duo_steps_step; [apply duo_step_B; apply (hs_step_4 EndB 2 1 H1)|].
    apply duo_steps_refl. }
  destruct Hsteps as (a & b & w & Hsteps).
  destruct (handshake_exchange 1 2 10 a b w H1 H2 Hsteps)
    as (_ & _ & _ & _ & Hend).
  destruct (Hend eq_refl) as (Hta & Htb & Hpa & Hpb & Hw).
  exists a, b, w. split; [exact Hsteps|].
  rewrite Hpa, Hpb. repeat split; assumption.
Defined.
